(** * pickaxe_generic: data units, trust-boundary deserializer and the
      generation calculator

    Shallow embedding of [pickaxe_generic/datatypes.py] and
    [pickaxe_generic/metacalc.py].

    Python values are modelled by the inductive type [pyval], exceptions by
    [exn] and fallible code by the [result] monad.  The standard library's
    [pickle] and the chemistry engine (RDKit) are external to the repository:
    [pickle] is modelled by a small stack machine over the opcodes that the
    repository's own payloads use, and the chemistry engine is a parameter of
    the sections that need it. *)

From Stdlib Require Import ZArith.
From Stdlib.Strings Require Import Byte.
From stdpp Require Import base option list sorting strings pretty gmap.

Set Warnings "-register-all".

(** ** Exceptions and results *)

Inductive exn_class : Type :=
| UnpicklingError        (* pickle.UnpicklingError *)
| EOFError
| TypeError
| ValueError
| IndexError
| NotImplementedError
| AttributeError
| ArgumentError          (* Boost.Python.ArgumentError *)
| AtomValenceException   (* rdkit.Chem.rdchem.AtomValenceException *)
| KekulizeException      (* rdkit.Chem.rdchem.KekulizeException *)
| OtherException (name : string).

Global Instance exn_class_eq_dec : EqDecision exn_class.
Proof. solve_decision. Defined.

(** An exception instance: its class, its message and, for
    [raise ... from err], its cause. *)
Inductive exn : Type :=
| Exn (cls : exn_class) (msg : string) (cause : option exn).

Definition exn_type (e : exn) : exn_class :=
  match e with Exn c _ _ => c end.

Definition exn_msg (e : exn) : string :=
  match e with Exn _ m _ => m end.

Definition exn_cause (e : exn) : option exn :=
  match e with Exn _ _ c => c end.

Inductive result (A : Type) : Type :=
| OK (a : A)
| Raise (e : exn).
Global Arguments OK {A} a.
Global Arguments Raise {A} e.

Global Instance result_ret : MRet result := fun A a => OK a.
Global Instance result_bind : MBind result := fun A B f m =>
  match m with
  | OK a => f a
  | Raise e => Raise e
  end.
Global Instance result_fmap : FMap result := fun A B f m =>
  match m with
  | OK a => OK (f a)
  | Raise e => Raise e
  end.

(** [mapM] for [result]: the first exception aborts the traversal, as a
    Python comprehension does. *)
Fixpoint traverse {A B} (f : A → result B) (l : list A) : result (list B) :=
  match l with
  | [] => OK []
  | x :: l' => y ← f x; ys ← traverse f l'; OK (y :: ys)
  end.

(** ** Python values *)

Inductive pyval : Type :=
| PNone
| PBool (b : bool)
| PInt (z : Z)
| PStr (s : string)
| PBytes (b : list byte)
| PTuple (items : list pyval)
| PFrozenset (items : list pyval)
      (* one enumeration of the elements, each listed once; Python leaves
         the order open *)
| PClass (module name : string)
      (* a class object, such as [getattr(builtins, name)] *)
| PObject (module name : string) (args : list pyval).
      (* an instance of class [module.name], rebuilt from [args] *)

Section pyval_ind.
Variable P : pyval → Prop.
Hypothesis HNone : P PNone.
Hypothesis HBool : ∀ b, P (PBool b).
Hypothesis HInt : ∀ z, P (PInt z).
Hypothesis HStr : ∀ s, P (PStr s).
Hypothesis HBytes : ∀ b, P (PBytes b).
Hypothesis HTuple : ∀ items, Forall P items → P (PTuple items).
Hypothesis HFrozenset : ∀ items, Forall P items → P (PFrozenset items).
Hypothesis HClass : ∀ m n, P (PClass m n).
Hypothesis HObject : ∀ m n args, Forall P args → P (PObject m n args).

Fixpoint pyval_nested_ind (v : pyval) : P v :=
  let all := fix all (l : list pyval) : Forall P l :=
    match l with
    | [] => Forall_nil_2 P
    | x :: l' => Forall_cons_2 P x l' (pyval_nested_ind x) (all l')
    end in
  match v with
  | PNone => HNone
  | PBool b => HBool b
  | PInt z => HInt z
  | PStr s => HStr s
  | PBytes b => HBytes b
  | PTuple items => HTuple items (all items)
  | PFrozenset items => HFrozenset items (all items)
  | PClass m n => HClass m n
  | PObject m n args => HObject m n args (all args)
  end.
End pyval_ind.

(** Truth value of an object ([if x:]). *)
Definition truthy (v : pyval) : bool :=
  match v with
  | PNone => false
  | PBool b => b
  | PInt z => negb (z =? 0)%Z
  | PStr s => negb (bool_decide (s = ""))
  | PBytes b => negb (bool_decide (b = []))
  | PTuple items | PFrozenset items => negb (bool_decide (length items = 0))
  | PClass _ _ | PObject _ _ _ => true
  end.

Fixpoint string_chars (s : string) : list pyval :=
  match s with
  | EmptyString => []
  | String c s' => PStr (String c EmptyString) :: string_chars s'
  end.

(** [iter(v)] run to exhaustion. *)
Definition py_iter (v : pyval) : result (list pyval) :=
  match v with
  | PTuple items | PFrozenset items => OK items
  | PStr s => OK (string_chars s)
  | PBytes b => OK ((λ x, PInt (Z.of_N (Byte.to_N x))) <$> b)
  | _ => Raise (Exn TypeError "object is not iterable" None)
  end.

(** [a == b].  [True == 1] and [False == 0] hold in Python; two tuples are
    equal when they are equal item by item, two frozensets when they have
    the same elements; an instance of another class is equal to itself
    only, and the instances in a value are distinct objects. *)
Fixpoint py_eq (a b : pyval) {struct a} : bool :=
  match a, b with
  | PNone, PNone => true
  | PBool x, PBool y => Bool.eqb x y
  | PBool x, PInt z | PInt z, PBool x => (z =? (if x then 1 else 0))%Z
  | PInt x, PInt y => (x =? y)%Z
  | PStr x, PStr y => bool_decide (x = y)
  | PBytes x, PBytes y => bool_decide (Byte.to_N <$> x = Byte.to_N <$> y)
  | PTuple l1, PTuple l2 =>
      (fix eq_items (l1 l2 : list pyval) : bool :=
         match l1, l2 with
         | [], [] => true
         | x :: l1', y :: l2' => py_eq x y && eq_items l1' l2'
         | _, _ => false
         end) l1 l2
  | PFrozenset l1, PFrozenset l2 =>
      (fix included (l1 : list pyval) : bool :=
         match l1 with
         | [] => true
         | x :: l1' => existsb (py_eq x) l2 && included l1'
         end) l1
      && forallb
           (λ y, (fix member (l1 : list pyval) : bool :=
                    match l1 with
                    | [] => false
                    | x :: l1' => py_eq x y || member l1'
                    end) l1) l2
  | PClass m1 n1, PClass m2 n2 => bool_decide (m1 = m2 ∧ n1 = n2)
  | _, _ => false
  end.

(** The elements that [frozenset(items)] keeps beside those already
    [seen]: an item equal to an earlier one is dropped. *)
Fixpoint py_dedupe_from (seen items : list pyval) : list pyval :=
  match items with
  | [] => []
  | x :: items' =>
      if existsb (py_eq x) seen then py_dedupe_from seen items'
      else x :: py_dedupe_from (x :: seen) items'
  end.

Definition py_dedupe (items : list pyval) : list pyval :=
  py_dedupe_from [] items.

(** No item is equal to an earlier one or to one of [seen]: the list
    enumerates a frozenset. *)
Fixpoint py_distinct_from (seen items : list pyval) : bool :=
  match items with
  | [] => true
  | x :: items' =>
      negb (existsb (py_eq x) seen) && py_distinct_from (x :: seen) items'
  end.

Definition py_distinct (items : list pyval) : bool :=
  py_distinct_from [] items.

(** ** The pickle protocol (standard library)

    A payload is the opcode sequence of a pickle byte string.  The machine
    below covers the opcodes that occur in the payloads of this repository:
    constants, tuples and frozensets built from a mark, global references and
    [REDUCE].  Every global reference goes through the [find_class] hook of
    the unpickler.  Payloads with other opcodes (lists, dictionaries, sets,
    floats, the memo) and the values they build are not modelled: what is
    proved of [run] is proved of payloads over the opcodes below. *)

Module Pickle.

Inductive opcode : Type :=
| NONE
| NEWTRUE
| NEWFALSE
| BININT (z : Z)
| BINUNICODE (s : string)
| BINBYTES (b : list byte)
| MARK
| TUPLE
| FROZENSET
| GLOBAL (module name : string)
| REDUCE
| STOP.

Definition payload := list opcode.

Inductive slot : Type :=
| Val (v : pyval)
| Mark.

Definition stack := list slot.

Inductive outcome : Type :=
| Next (st : stack)
| Done (v : pyval)
| Fail (e : exn).

Definition unpickling_error (msg : string) : exn :=
  Exn UnpicklingError msg None.

(** Pops the objects above the topmost mark, oldest first. *)
Fixpoint pop_mark (st : stack) (acc : list pyval)
    : option (list pyval * stack) :=
  match st with
  | [] => None
  | Mark :: st' => Some (acc, st')
  | Val v :: st' => pop_mark st' (v :: acc)
  end.

(** Calling a class object on an argument tuple. *)
Definition call_class (module name : string) (args : list pyval)
    : result pyval :=
  if bool_decide (module = "builtins" ∧ name = "tuple") then
    match args with
    | [] => OK (PTuple [])
    | [x] => PTuple <$> py_iter x
    | _ => Raise (Exn TypeError "tuple expected at most 1 argument" None)
    end
  else if bool_decide (module = "builtins" ∧ name = "frozenset") then
    match args with
    | [] => OK (PFrozenset [])
    | [x] => (λ items, PFrozenset (py_dedupe items)) <$> py_iter x
    | _ => Raise (Exn TypeError "frozenset expected at most 1 argument" None)
    end
  else OK (PObject module name args).

Definition reduce (callable args : pyval) : result pyval :=
  match args with
  | PTuple a =>
      match callable with
      | PClass m n => call_class m n a
      | _ => Raise (Exn TypeError "object is not callable" None)
      end
  | _ => Raise (Exn TypeError "argument list must be a tuple" None)
  end.

(** Taking the top object off the stack: the objects below the topmost
    mark are out of reach. *)
Definition pop (st : stack) : exn + (pyval * stack) :=
  match st with
  | Val v :: st' => inr (v, st')
  | Mark :: _ => inl (unpickling_error "unexpected MARK found")
  | [] => inl (unpickling_error "unpickling stack underflow")
  end.

Section machine.
(** The hook [Unpickler.find_class(module, name)]. *)
Variable find_class : string → string → result pyval.

Definition step (op : opcode) (st : stack) : outcome :=
  match op with
  | NONE => Next (Val PNone :: st)
  | NEWTRUE => Next (Val (PBool true) :: st)
  | NEWFALSE => Next (Val (PBool false) :: st)
  | BININT z => Next (Val (PInt z) :: st)
  | BINUNICODE s => Next (Val (PStr s) :: st)
  | BINBYTES b => Next (Val (PBytes b) :: st)
  | MARK => Next (Mark :: st)
  | TUPLE =>
      match pop_mark st [] with
      | Some (items, st') => Next (Val (PTuple items) :: st')
      | None => Fail (unpickling_error "could not find MARK")
      end
  | FROZENSET =>
      match pop_mark st [] with
      | Some (items, st') => Next (Val (PFrozenset (py_dedupe items)) :: st')
      | None => Fail (unpickling_error "could not find MARK")
      end
  | GLOBAL m n =>
      match find_class m n with
      | OK c => Next (Val c :: st)
      | Raise e => Fail e
      end
  | REDUCE =>
      match pop st with
      | inr (args, st1) =>
          match pop st1 with
          | inr (callable, st') =>
              match reduce callable args with
              | OK v => Next (Val v :: st')
              | Raise e => Fail e
              end
          | inl e => Fail e
          end
      | inl e => Fail e
      end
  | STOP =>
      match pop st with
      | inr (v, _) => Done v
      | inl e => Fail e
      end
  end.

Fixpoint run (p : payload) (st : stack) : result pyval :=
  match p with
  | [] => Raise (Exn EOFError "Ran out of input" None)
  | op :: p' =>
      match step op st with
      | Next st' => run p' st'
      | Done v => OK v
      | Fail e => Raise e
      end
  end.

(** Runs a prefix of a payload; [None] when the machine stops or raises
    inside the prefix. *)
Fixpoint run_prefix (p : payload) (st : stack) : option stack :=
  match p with
  | [] => Some st
  | op :: p' =>
      match step op st with
      | Next st' => run_prefix p' st'
      | _ => None
      end
  end.

(** [Unpickler(io.BytesIO(data)).load()] *)
Definition Unpickler_load (data : payload) : result pyval := run data [].
End machine.

(** The pickler.  An instance of a class is saved as a reference to its
    class, the argument tuple and [REDUCE]; a class object is saved as a
    reference. *)
Fixpoint save (v : pyval) : payload :=
  let save_all := fix save_all (l : list pyval) : payload :=
    match l with
    | [] => []
    | x :: l' => save x ++ save_all l'
    end in
  match v with
  | PNone => [NONE]
  | PBool true => [NEWTRUE]
  | PBool false => [NEWFALSE]
  | PInt z => [BININT z]
  | PStr s => [BINUNICODE s]
  | PBytes b => [BINBYTES b]
  | PTuple items => MARK :: save_all items ++ [TUPLE]
  | PFrozenset items => MARK :: save_all items ++ [FROZENSET]
  | PClass m n => [GLOBAL m n]
  | PObject m n args => GLOBAL m n :: MARK :: save_all args ++ [TUPLE; REDUCE]
  end.

Definition save_all : list pyval → payload :=
  fix save_all (l : list pyval) : payload :=
    match l with
    | [] => []
    | x :: l' => save x ++ save_all l'
    end.

(** [pickle.dumps(v)] *)
Definition dumps (v : pyval) : payload := save v ++ [STOP].

(** [pickle.loads(data)]: the unpickler whose [find_class] resolves every
    reference. *)
Definition plain_find_class (module name : string) : result pyval :=
  OK (PClass module name).
Definition plain_loads (data : payload) : result pyval :=
  Unpickler_load plain_find_class data.

End Pickle.

(** ** The trust-boundary deserializer ([datatypes.py], lines 17-37) *)

Definition _safe_builtins_classes : gset string :=
  {[ "frozenset"; "tuple" ]}.

(** [getattr(builtins, name)] for the name of a builtin class. *)
Definition getattr_builtins (name : string) : pyval := PClass "builtins" name.

Definition forbidden (module name : string) : exn :=
  Exn UnpicklingError
      ("global '" +:+ module +:+ "." +:+ name +:+ "' is forbidden") None.

(** [__SafeUnpickler.find_class] *)
Definition find_class (module name : string) : result pyval :=
  if bool_decide (module = "builtins")
     && bool_decide (name ∈ _safe_builtins_classes)
  then OK (getattr_builtins name)
  else Raise (forbidden module name).

(** [loads] *)
Definition loads (string_in : Pickle.payload) : result pyval :=
  Pickle.Unpickler_load find_class string_in.

(** ** The chemistry engine (external collaborator)

    RDKit objects are immutable values here.  A [ChemicalReaction] is
    represented by the binary string from which the engine's pickle support
    rebuilds it ([__getinitargs__]); as a Python object it is an instance of
    [rdkit.Chem.rdChemReactions.ChemicalReaction]. *)

Record ChemicalReaction : Type := { rxn_binary : list byte }.

Definition rdChemReactions : string := "rdkit.Chem.rdChemReactions".

Definition rxn_object (r : ChemicalReaction) : pyval :=
  PObject rdChemReactions "ChemicalReaction" [PBytes (rxn_binary r)].

(** [isinstance(v, rdkit.Chem.rdChemReactions.ChemicalReaction)], with the
    reaction when it holds. *)
Definition as_rxn (v : pyval) : option ChemicalReaction :=
  match v with
  | PObject m n [PBytes b] =>
      if bool_decide (m = rdChemReactions ∧ n = "ChemicalReaction")
      then Some {| rxn_binary := b |} else None
  | _ => None
  end.

(** The argument [molecule: rdkit.Chem.rdchem.Mol | str | bytes]. *)
Inductive molecule_arg (Mol : Type) : Type :=
| MolObj (m : Mol)
| MolStr (s : string)
| MolBytes (b : list byte).
Global Arguments MolObj {Mol} m.
Global Arguments MolStr {Mol} s.
Global Arguments MolBytes {Mol} b.

Class ChemistryEngine : Type := {
  Mol : Type;                                   (* rdkit.Chem.rdchem.Mol *)
  Mol_ToBinary : Mol → list byte;               (* mol.ToBinary() *)
  Mol_FromBinary : list byte → Mol;             (* rdkit.Chem.Mol(blob) *)
  MolToSmiles : Mol → string;
  MolToInchiKey : Mol → string;
  Kekulize : Mol → result Mol;
      (* Kekulize(copy, clearAromaticFlags=True), on a copy of the molecule *)
  ReactionFromSmarts : string → result ChemicalReaction;
  ReactionToSmarts : ChemicalReaction → string;
  RunReactants : ChemicalReaction → list Mol → result (list (list Mol));
      (* rxn.RunReactants(mols, maxProducts=0) *)
  (* interfaces.MolDatRDKit._processinput(molecule, sanitize, neutralize),
     inherited by both molecule units; its body is not part of these files *)
  _processinput : molecule_arg Mol → bool → bool → result Mol;
}.

(** ** Molecule units *)

Module MolDatBasicV1.
Section with_engine.
Context `{ChemistryEngine}.

Record t : Type := { _blob : list byte; _smiles : string }.

Definition _buildfrommol (in_val : Mol) : t :=
  {| _blob := Mol_ToBinary in_val; _smiles := MolToSmiles in_val |}.

Definition __init__ (molecule : molecule_arg Mol)
    (sanitize neutralize : bool) : result t :=
  rdkitmol ← _processinput molecule sanitize neutralize;
  OK (_buildfrommol rdkitmol).

Definition blob (self : t) : list byte := _blob self.
Definition rdkitmol (self : t) : Mol := Mol_FromBinary (_blob self).
Definition inchikey (self : t) : string := MolToInchiKey (rdkitmol self).
Definition smiles (self : t) : string := _smiles self.
Definition uid (self : t) : string := _smiles self.

Definition __repr__ (self : t) : string :=
  "MolDatBasic('" +:+ smiles self +:+ "')".

Definition __setstate__ (arg : list byte) : t :=
  {| _blob := arg; _smiles := MolToSmiles (Mol_FromBinary arg) |}.
End with_engine.
End MolDatBasicV1.

Module MolDatBasicV2.
Section with_engine.
Context `{ChemistryEngine}.

Record t : Type := {
  _blob : option (list byte);
  _inchikey : option string;
  _rdkitmol : Mol;
  _smiles : string;
}.

Definition __init__ (molecule : molecule_arg Mol)
    (sanitize neutralize : bool) : result t :=
  let _blob0 : option (list byte) := None in
  let _inchikey0 : option string := None in
  rdkitmol ← _processinput molecule sanitize neutralize;
  (* _buildfrommol *)
  OK {| _blob := _blob0; _inchikey := _inchikey0;
        _rdkitmol := rdkitmol; _smiles := MolToSmiles rdkitmol |}.

(** The memoizing properties return the value and the updated unit. *)
Definition blob (self : t) : list byte * t :=
  match _blob self with
  | Some b => (b, self)
  | None =>
      let b := Mol_ToBinary (_rdkitmol self) in
      (b, {| _blob := Some b; _inchikey := _inchikey self;
             _rdkitmol := _rdkitmol self; _smiles := _smiles self |})
  end.

Definition inchikey (self : t) : string * t :=
  match _inchikey self with
  | Some k => (k, self)
  | None =>
      let k := MolToInchiKey (_rdkitmol self) in
      (k, {| _blob := _blob self; _inchikey := Some k;
             _rdkitmol := _rdkitmol self; _smiles := _smiles self |})
  end.

Definition rdkitmol (self : t) : Mol := _rdkitmol self.
Definition smiles (self : t) : string := _smiles self.
Definition uid (self : t) : string := _smiles self.

(** The quotation mark, which the [repr] of this profile puts around the
    canonical string. *)
Definition dquote : string := String (Ascii.ascii_of_nat 34) EmptyString.

Definition __repr__ (self : t) : string :=
  "MolDatBasic(" +:+ dquote +:+ smiles self +:+ dquote +:+ ")".
End with_engine.
End MolDatBasicV2.

(** [interfaces.MolDatBase]: the molecule units of this file, which are
    [MolDatRDKit] instances, and any other implementation. *)
Inductive MolDatBase `{ChemistryEngine} : Type :=
| MolV1 (u : MolDatBasicV1.t)
| MolV2 (u : MolDatBasicV2.t)
| MolOther (uid : string).

(** [reactant.rdkitmol] when [isinstance(reactant, interfaces.MolDatRDKit)]. *)
Definition rdkitmol_of `{ChemistryEngine} (reactant : MolDatBase)
    : option Mol :=
  match reactant with
  | MolV1 u => Some (MolDatBasicV1.rdkitmol u)
  | MolV2 u => Some (MolDatBasicV2.rdkitmol u)
  | MolOther _ => None
  end.

(** [interfaces.NetworkEngine]: the factory [engine.Mol] that wraps a
    structural object into a molecule unit. *)
Record NetworkEngine `{ChemistryEngine} : Type := {
  engine_Mol : Mol → result MolDatBase;
}.

(** ** Operator units *)

(** [t[i]] for a tuple [t] and an integer [i]: a negative index counts from
    the end, and an index outside [-len(t), len(t))] raises [IndexError]. *)
Definition py_index {A} (l : list A) (i : Z) : result A :=
  let n := Z.of_nat (length l) in
  let j := if bool_decide (i < 0)%Z then (i + n)%Z else i in
  if bool_decide (0 ≤ j < n)%Z then
    match l !! Z.to_nat j with
    | Some x => OK x
    | None => Raise (Exn IndexError "tuple index out of range" None)
    end
  else Raise (Exn IndexError "tuple index out of range" None).

(** [a, b = v] *)
Definition unpack2 (v : pyval) : result (pyval * pyval) :=
  items ← py_iter v;
  match items with
  | [a; b] => OK (a, b)
  | _ => Raise (Exn ValueError "wrong number of values to unpack" None)
  end.

(** An engine function called on an object that may or may not be a
    reaction, as in [ReactionToSmarts(v)]. *)
Definition with_rxn {A} (v : pyval) (f : ChemicalReaction → result A)
    : result A :=
  match as_rxn v with
  | Some r => f r
  | None => Raise (Exn ArgumentError "not a ChemicalReaction" None)
  end.

(** A method of a reaction looked up on an object that may or may not be a
    reaction, as in [v.RunReactants(...)]: the values of this file other
    than reactions have no such attribute. *)
Definition rxn_method {A} (v : pyval) (f : ChemicalReaction → result A)
    : result A :=
  match as_rxn v with
  | Some r => f r
  | None => Raise (Exn AttributeError "object has no such attribute" None)
  end.

Module OpDatBasic.
Section with_engine.
Context `{ChemistryEngine}.
(** Python's [repr] of a string and of the reactant sequence. *)
Variable repr_str : string → string.
Variable repr_reactants : list MolDatBase → string.

(** The argument [operator], by its dynamic type. *)
Inductive operator_arg : Type :=
| OpRxn (r : ChemicalReaction)
| OpStr (s : string)
| OpBytes (b : Pickle.payload)
| OpOther.

Record t : Type := {
  _blob : option Pickle.payload;
  _engine : NetworkEngine;
  _kekulize : pyval;
  _rdkitrxn : pyval;
  _smarts : option string;
  _templates : option (list Mol);
  _uid : option string;
}.

Definition __init__ (operator : operator_arg) (engine : NetworkEngine)
    (kekulize_before_operation : bool) : result t :=
  '(rdkitrxn, kekulize, blob) ←
    match operator with
    | OpRxn r =>
        OK (rxn_object r, PBool kekulize_before_operation, None)
    | OpStr s =>
        r ← ReactionFromSmarts s;
        OK (rxn_object r, PBool kekulize_before_operation, None)
    | OpBytes b =>
        '(rxn, kek) ← loads b ≫= unpack2;
        OK (rxn, kek, Some b)
    | OpOther =>
        Raise (Exn NotImplementedError "Invalid operator type" None)
    end;
  (* lines 228-232: [self._blob = None] also resets the slot that the
     bytes branch has just filled *)
  let blob : option Pickle.payload := None in
  OK {| _blob := blob; _engine := engine; _kekulize := kekulize;
        _rdkitrxn := rdkitrxn; _smarts := None; _templates := None;
        _uid := None |}.

Definition rdkitrxn (self : t) : pyval := _rdkitrxn self.

Definition set_blob (self : t) (b : Pickle.payload) : t :=
  {| _blob := Some b; _engine := _engine self;
     _kekulize := _kekulize self; _rdkitrxn := _rdkitrxn self;
     _smarts := _smarts self; _templates := _templates self;
     _uid := _uid self |}.

Definition set_smarts (self : t) (s : string) : t :=
  {| _blob := _blob self; _engine := _engine self;
     _kekulize := _kekulize self; _rdkitrxn := _rdkitrxn self;
     _smarts := Some s; _templates := _templates self;
     _uid := _uid self |}.

Definition blob (self : t) : Pickle.payload * t :=
  match _blob self with
  | Some b => (b, self)
  | None =>
      let b := Pickle.dumps (PTuple [rdkitrxn self; _kekulize self]) in
      (b, set_blob self b)
  end.

Definition smarts (self : t) : result (string * t) :=
  match _smarts self with
  | Some s => OK (s, self)
  | None =>
      s ← with_rxn (_rdkitrxn self) (λ r, OK (ReactionToSmarts r));
      OK (s, set_smarts self s)
  end.

Definition uid (self : t) : result (string * t) :=
  match _smarts self with
  | Some s => OK (s, self)
  | None =>
      s ← with_rxn (_rdkitrxn self) (λ r, OK (ReactionToSmarts r));
      OK (s, set_smarts self s)
  end.

Definition __repr__ (self : t) : result string :=
  '(u, _) ← uid self;
  let sval := "OpDatBasic(" +:+ repr_str u +:+ ")" in
  OK (if truthy (_kekulize self) then sval +:+ ",kekulize" else sval).

(** [raise ValueError(f"Error occurred when using operator {self} on
    {reactants}") from err] *)
Definition operator_error (self : t) (reactants : list MolDatBase)
    (err : exn) : exn :=
  match __repr__ self with
  | OK s =>
      Exn ValueError
          ("Error occurred when using operator " +:+ s +:+ " on "
           +:+ repr_reactants reactants)
          (Some err)
  | Raise e => e
  end.

(** The body of the [try] statement of [__call__]. *)
Definition transform (self : t) (rdkitmols : list Mol)
    : result (list (list MolDatBase)) :=
  product_sets ←
    rxn_method (_rdkitrxn self) (λ r, RunReactants r rdkitmols);
  traverse (traverse (engine_Mol (_engine self))) product_sets.

(** The statements of [__call__] before the [try]. *)
Definition normalize (self : t) (reactants : list MolDatBase)
    : result (list Mol) :=
  let rdkitmols := omap rdkitmol_of reactants in
  if truthy (_kekulize self)
  then traverse Kekulize rdkitmols
  else OK rdkitmols.

(** Exception classes are matched by name; the [except] clauses of the
    source name exactly these two. *)
Definition __call__ (self : t) (reactants : list MolDatBase)
    : result (list (list MolDatBase)) :=
  rdkitmols ← normalize self reactants;
  match transform self rdkitmols with
  | OK products => OK products
  | Raise err =>
      if bool_decide (exn_type err = AtomValenceException)
      then Raise (operator_error self reactants err)
      else if bool_decide (exn_type err = KekulizeException)
      then Raise (operator_error self reactants err)
      else Raise err
  end.

(** Further capabilities of the engine, used by the methods below:
    [rxn.GetReactants()], [mol.HasSubstructMatch(template,
    useChirality=True)] and the two template counts. *)
Variable GetReactants : ChemicalReaction → list Mol.
Variable HasSubstructMatch : Mol → Mol → bool.
Variable GetNumReactantTemplates : ChemicalReaction → Z.
Variable GetNumAgentTemplates : ChemicalReaction → Z.

Definition set_templates (self : t) (ts : list Mol) : t :=
  {| _blob := _blob self; _engine := _engine self;
     _kekulize := _kekulize self; _rdkitrxn := _rdkitrxn self;
     _smarts := _smarts self; _templates := Some ts;
     _uid := _uid self |}.

Definition _build_templates (self : t) : result (list Mol) :=
  rxn_method (_rdkitrxn self) (λ r, OK (GetReactants r)).

(** [compat] returns its outcome together with the unit, whose template
    slot it may have filled; the slot stays filled when a later statement
    raises. *)
Definition compat (self : t) (mol : MolDatBase) (arg : Z)
    : result bool * t :=
  match
    match _templates self with
    | Some ts => OK (ts, self)
    | None => ts ← _build_templates self; OK (ts, set_templates self ts)
    end
  with
  | Raise e => (Raise e, self)
  | OK (templates, self) =>
      match rdkitmol_of mol with
      | Some tempmol =>
          (tempmol ←
             (if truthy (_kekulize self) then Kekulize tempmol
              else OK tempmol);
           template ← py_index templates arg;
           OK (HasSubstructMatch tempmol template),
           self)
      | None => (OK false, self)
      end
  end.

(** [_attempt_reaction]: the output of [print(type(err))] is the list of
    printed class names. *)
Definition _attempt_reaction (self : t) (mols : list Mol)
    : result (list (list Mol)) * list exn_class :=
  match rxn_method (_rdkitrxn self) (λ r, RunReactants r mols) with
  | OK products => (OK products, [])
  | Raise err => (Raise err, [exn_type err])
  end.

Definition __len__ (self : t) : result Z :=
  rxn_method (_rdkitrxn self)
    (λ r, OK (GetNumReactantTemplates r + GetNumAgentTemplates r)%Z).

(** The argument [other: object] of [__lt__]. *)
Inductive other_arg : Type :=
| OtherOp (other : t)
| OtherObject (v : pyval).

(** [__lt__] returns the comparison with both units, whose memo slots the
    reads of [uid] may have filled. *)
Definition __lt__ (self : t) (other : other_arg) : result (bool * t * t) :=
  match other with
  | OtherOp other =>
      '(u1, self) ← uid self;
      '(u2, other) ← uid other;
      OK (String.ltb u1 u2, self, other)
  | OtherObject _ =>
      Raise (Exn NotImplementedError "Comparison not implemented" None)
  end.
End with_engine.
End OpDatBasic.

(** ** Reaction units

    [interfaces.Identifier] is the type of the uids of molecule and operator
    units, which are strings ([smiles], [smarts]); their order is the
    lexicographic order of strings.  A frozenset of identifiers is a
    duplicate-free list, in some enumeration order. *)

Definition Identifier : Type := string.

Definition frozenset (l : list Identifier) : list Identifier := remove_dups l.

Definition sorted (l : list Identifier) : list Identifier :=
  merge_sort String.le l.

(** The constructor of a reaction unit stores whatever a serialized reaction
    decodes to.  This file models the units whose identifiers are strings;
    a run that would store another value leaves the model, which the
    marker below records: it is not an exception of the code, which goes
    on there. *)
Definition outside_model (what : string) : exn :=
  Exn (OtherException "<outside the model>") what None.

(** [v[i]].  Subscripting a class object gives a generic alias, which is
    not modelled, and what subscripting an instance does rests with its
    class. *)
Definition getitem (v : pyval) (i : nat) : result pyval :=
  match v with
  | PTuple items =>
      match items !! i with
      | Some x => OK x
      | None => Raise (Exn IndexError "tuple index out of range" None)
      end
  | PStr s =>
      match string_chars s !! i with
      | Some x => OK x
      | None => Raise (Exn IndexError "string index out of range" None)
      end
  | PBytes b =>
      match b !! i with
      | Some x => OK (PInt (Z.of_N (Byte.to_N x)))
      | None => Raise (Exn IndexError "index out of range" None)
      end
  | PClass _ _ => Raise (outside_model "subscripted class object")
  | PObject _ _ _ => Raise (outside_model "subscripted instance")
  | PNone | PBool _ | PInt _ | PFrozenset _ =>
      Raise (Exn TypeError "object is not subscriptable" None)
  end.

(** A decoded value read as an identifier: a string.  The code stores a
    value of any other type as well; such units are outside this file. *)
Definition as_identifier (v : pyval) : result Identifier :=
  match v with
  | PStr s => OK s
  | _ => Raise (outside_model "identifier that is not a string")
  end.

(** [frozenset(v)] for a decoded collection of identifiers. *)
Definition frozenset_of (v : pyval) : result (list Identifier) :=
  items ← py_iter v;
  ids ← traverse as_identifier items;
  OK (frozenset ids).

Module RxnDatBasic.

Definition uid_t : Type :=
  Identifier * list Identifier * list Identifier.

Record t : Type := {
  _blob : option Pickle.payload;
  _operator : Identifier;
  _products : list Identifier;
  _reactants : list Identifier;
  _uid : option uid_t;
}.

Definition insufficient_arguments : exn :=
  Exn TypeError "Insufficient arguments provided" None.

Definition __init__ (operator : option Identifier)
    (reactants products : option (list Identifier))
    (reaction : option Pickle.payload) : result t :=
  '(op, prods, reacts) ←
    match reaction with
    | Some reaction =>
        data ← loads reaction;
        op ← getitem data 0 ≫= as_identifier;
        prods ← getitem data 1 ≫= frozenset_of;
        reacts ← getitem data 2 ≫= frozenset_of;
        OK (op, prods, reacts)
    | None =>
        match operator, reactants, products with
        | Some operator, Some reactants, Some products =>
            let reacts := frozenset reactants in
            let prods := frozenset products in
            OK (operator, prods, reacts)
        | _, _, _ => Raise insufficient_arguments
        end
    end;
  OK {| _blob := None; _operator := op; _products := prods;
        _reactants := reacts; _uid := None |}.

Definition pickled (ids : list Identifier) : pyval :=
  PFrozenset (PStr <$> ids).

Definition blob (self : t) : Pickle.payload * t :=
  match _blob self with
  | Some b => (b, self)
  | None =>
      let b :=
        Pickle.dumps
          (PTuple [PStr (_operator self); pickled (_products self);
                   pickled (_reactants self)]) in
      (b, {| _blob := Some b; _operator := _operator self;
             _products := _products self; _reactants := _reactants self;
             _uid := _uid self |})
  end.

Definition operator (self : t) : Identifier := _operator self.
Definition products (self : t) : list Identifier := _products self.
Definition reactants (self : t) : list Identifier := _reactants self.

Definition uid (self : t) : uid_t * t :=
  match _uid self with
  | Some u => (u, self)
  | None =>
      let u := (_operator self, sorted (_products self),
                sorted (_reactants self)) in
      (u, {| _blob := _blob self; _operator := _operator self;
             _products := _products self; _reactants := _reactants self;
             _uid := Some u |})
  end.


(** [t1 < t2] for tuples of identifiers: the first position where the two
    differ decides, and a proper prefix is smaller. *)
Fixpoint tuple_lt (l1 l2 : list Identifier) : bool :=
  match l1, l2 with
  | [], [] => false
  | [], _ :: _ => true
  | _ :: _, [] => false
  | x :: l1', y :: l2' =>
      if bool_decide (x = y) then tuple_lt l1' l2' else String.ltb x y
  end.

(** [u1 < u2] for uids, which are triples. *)
Definition uid_lt (u1 u2 : uid_t) : bool :=
  let '(o1, p1, r1) := u1 in
  let '(o2, p2, r2) := u2 in
  if bool_decide (o1 = o2) then
    if bool_decide (p1 = p2) then tuple_lt r1 r2 else tuple_lt p1 p2
  else String.ltb o1 o2.

(** The argument [other: object] of [__lt__]. *)
Inductive other_arg : Type :=
| OtherRxn (other : t)
| OtherObject (v : pyval).

Definition __lt__ (self : t) (other : other_arg) : result (bool * t * t) :=
  match other with
  | OtherRxn other =>
      let '(u1, self) := uid self in
      let '(u2, other) := uid other in
      OK (uid_lt u1 u2, self, other)
  | OtherObject _ =>
      Raise (Exn NotImplementedError "Comparison not implemented" None)
  end.

End RxnDatBasic.

(** ** The generation calculator ([metacalc.py]) *)

Module GenerationCalculator.
Section calc.
(** Metadata keys are hashable values; [Item] is the molecule data unit
    and [Op] the operator data unit carried by a packet. *)
Context {K : Type} `{Countable K}.
Context {Item : Type} `{EqDecision Item}.
Context {Op : Type}.

(** Modelled from the spec: [interfaces.DataPacketE], declared outside
    these files, "a transient pairing of a data unit with its current
    metadata snapshot"; the snapshot is optional and maps metadata keys
    to values, which for the generation key are integers. *)
Record DataPacketE : Type := {
  item : Item;
  meta : option (gmap K Z);
}.

Global Instance DataPacketE_eq_dec : EqDecision DataPacketE.
Proof. solve_decision. Defined.

(** Modelled from the spec: [interfaces.ReactionExplicit], declared
    outside these files: the operator of a reaction with the packets of
    its reactants and of its products. *)
Record ReactionExplicit : Type := {
  operator : Op;
  reactants : list DataPacketE;
  products : list DataPacketE;
}.

Record t : Type := { gen_key : K }.

Definition key (self : t) : K := gen_key self.

(** [MetaKeyPacket(molecule_keys=frozenset((self.gen_key,)))] *)
Definition meta_required (self : t) : gset K := {[ gen_key self ]}.

Definition resolver (self : t) : Z → Z → Z := Z.min.

(** How the [for] loop of [__call__] ends: by its [return None], or by
    exhausting the reactants with the current value of [cur_gen]. *)
Inductive loop_exit : Type :=
| Returned_None
| Exhausted (cur_gen : option Z).

Fixpoint loop (self : t) (rs : list DataPacketE) (cur_gen : option Z)
    : loop_exit :=
  match rs with
  | [] => Exhausted cur_gen
  | reactant :: rs' =>
      match meta reactant with
      | None => Returned_None
      | Some m =>
          match m !! gen_key self with
          | None => Returned_None
          | Some g =>
              let cur_gen :=
                match cur_gen with
                | None => (g + 1)%Z
                | Some c => c
                end in
              let cur_gen := Z.max cur_gen (g + 1) in
              loop self rs' (Some cur_gen)
          end
      end
  end.

(** The value stored for the key in the snapshot of [data], if any. *)
Definition stored (self : t) (data : DataPacketE) : option Z :=
  m ← meta data; m !! gen_key self.

Definition __call__ (self : t) (data : DataPacketE)
    (rxn : ReactionExplicit) (prev_value : option Z) : option Z :=
  if bool_decide (data ∈ reactants rxn) then None
  else
    match loop self (reactants rxn) None with
    | Returned_None => None
    | Exhausted None => None
    | Exhausted (Some cur_gen) =>
        if match prev_value with
           | Some p => bool_decide (p < cur_gen)%Z
           | None => false
           end
        then None
        else if match meta data with
                | Some m =>
                    match m !! gen_key self with
                    | Some s => bool_decide (s ≤ cur_gen)%Z
                    | None => false
                    end
                | None => false
                end
        then None
        else Some cur_gen
    end.

(** The generation a reactant carries, if any. *)
Definition generation (self : t) (reactant : DataPacketE) : option Z :=
  stored self reactant.
End calc.
End GenerationCalculator.

(** ** Auxiliary definitions for the statements *)

(** The guard of [find_class] as a boolean. *)
Definition safe_class (module name : string) : bool :=
  bool_decide (module = "builtins")
  && bool_decide (name ∈ _safe_builtins_classes).

(** The classes whose instances are the container values themselves. *)
Definition container_class (module name : string) : bool :=
  bool_decide (module = "builtins" ∧ name = "tuple")
  || bool_decide (module = "builtins" ∧ name = "frozenset").

(** A value is well formed when it stands for a Python object: a
    frozenset lists each of its elements once, and no [PObject] claims to
    be an instance of [tuple] or [frozenset], whose instances are [PTuple]
    and [PFrozenset]. *)
Fixpoint well_formed (v : pyval) : bool :=
  match v with
  | PTuple items => forallb well_formed items
  | PFrozenset items => forallb well_formed items && py_distinct items
  | PObject m n args => negb (container_class m n) && forallb well_formed args
  | _ => true
  end.

Section first_rejected.
Variable allow : string → string → bool.

(** The first class reference, in the order in which the pickler emits
    them, that the guard [allow] turns down. *)
Fixpoint first_rejected (v : pyval) : option (string * string) :=
  let all := fix all (l : list pyval) : option (string * string) :=
    match l with
    | [] => None
    | x :: l' =>
        match first_rejected x with
        | Some c => Some c
        | None => all l'
        end
    end in
  match v with
  | PTuple items | PFrozenset items => all items
  | PClass m n => if allow m n then None else Some (m, n)
  | PObject m n args => if allow m n then all args else Some (m, n)
  | _ => None
  end.

Definition first_rejected_all : list pyval → option (string * string) :=
  fix all (l : list pyval) : option (string * string) :=
    match l with
    | [] => None
    | x :: l' =>
        match first_rejected x with
        | Some c => Some c
        | None => all l'
        end
    end.

(** A [find_class] that resolves the references [allow] admits and raises
    [err] on the others. *)
Definition guarded (err : string → string → exn) (module name : string)
    : result pyval :=
  if allow module name then OK (PClass module name)
  else Raise (err module name).
End first_rejected.

(** Values made of constants, tuples, frozensets and the two allowed class
    objects only; a frozenset lists each of its elements once. *)
Fixpoint data_only (v : pyval) : bool :=
  match v with
  | PTuple items => forallb data_only items
  | PFrozenset items => forallb data_only items && py_distinct items
  | PClass m n => safe_class m n
  | PObject _ _ _ => false
  | _ => true
  end.

Definition slot_data_only (s : Pickle.slot) : bool :=
  match s with
  | Pickle.Val v => data_only v
  | Pickle.Mark => true
  end.

(** A chemistry engine for concrete runs: molecules and reactions are their
    own strings, and [RunReactants] ends as [outcome] says. *)
Definition string_engine (outcome : result (list (list string)))
    : ChemistryEngine := {|
  Mol := string;
  Mol_ToBinary := String.list_byte_of_string;
  Mol_FromBinary := String.string_of_list_byte;
  MolToSmiles := λ m, m;
  MolToInchiKey := λ m, m;
  Kekulize := λ m, OK m;
  ReactionFromSmarts := λ s, OK {| rxn_binary := String.list_byte_of_string s |};
  ReactionToSmarts := λ r, String.string_of_list_byte (rxn_binary r);
  RunReactants := λ _ _, outcome;
  _processinput := λ molecule _ _,
    match molecule with
    | MolObj m => OK m
    | MolStr s => OK s
    | MolBytes b => OK (String.string_of_list_byte b)
    end;
|}.

Definition string_network_engine (outcome : result (list (list string)))
    : @NetworkEngine (string_engine outcome) :=
  {| engine_Mol := λ m : @Mol (string_engine outcome),
       OK (@MolOther (string_engine outcome) m) |}.

(** The two ways of calling [RxnDatBasic]: with the serialized reaction, or
    with the complete (operator, reactants, products) triple. *)
Definition blob_form (reaction : option Pickle.payload) : Prop :=
  is_Some reaction.

Definition triple_form (operator : option Identifier)
    (reactants products : option (list Identifier)) : Prop :=
  is_Some operator ∧ is_Some reactants ∧ is_Some products.

Definition exactly_one_form (operator : option Identifier)
    (reactants products : option (list Identifier))
    (reaction : option Pickle.payload) : Prop :=
  (blob_form reaction ∧ ¬ triple_form operator reactants products)
  ∨ (¬ blob_form reaction ∧ triple_form operator reactants products).

Section generation_statements.
Import GenerationCalculator.
Context {K : Type} `{Countable K}.
Context {Item : Type} `{EqDecision Item}.
Context {Op : Type}.

Local Abbreviation packet := (@DataPacketE K _ _ Item).
Local Abbreviation reaction := (@ReactionExplicit K _ _ Item Op).

(** [max] of a non-empty collection of generations. *)
Definition max_generation (gens : list Z) : option Z :=
  match gens with
  | [] => None
  | g :: gs => Some (foldr Z.max g gs)
  end.

(** The candidate in the words of the specification:
    [1 + max(reactant generations)], defined when every reactant carries a
    generation and there is at least one reactant. *)
Definition candidate (self : t) (rxn : reaction) : option Z :=
  gens ← mapM (generation self) (reactants rxn);
  m ← max_generation gens;
  Some (1 + m)%Z.

(** A value accepted earlier for the key reaches [__call__] as the
    argument [prev_value] or as the entry of the snapshot of [data]. *)
Definition accepted_before (self : t) (data : packet)
    (prev_value : option Z) (v : Z) : Prop :=
  prev_value = Some v ∨ stored self data = Some v.

(** The acceptance rule as the specification words it. *)
Definition acceptance_as_written : Prop :=
  ∀ (self : t) (data : packet) (rxn : reaction) (prev_value : option Z)
    (c : Z),
    data ∉ reactants rxn →
    Forall (λ r, is_Some (generation self r)) (reactants rxn) →
    candidate self rxn = Some c →
    (__call__ self data rxn prev_value = Some c
     ↔ (¬ (∃ v, accepted_before self data prev_value v))
       ∨ (∃ s, stored self data = Some s ∧ (c < s)%Z))
    ∧ (∀ v, accepted_before self data prev_value v → (v ≤ c)%Z →
            __call__ self data rxn prev_value = None).

(** The acceptance test that [__call__] performs on the candidate. *)
Definition accepts (self : t) (data : packet) (prev_value : option Z)
    (c : Z) : bool :=
  match prev_value with
  | Some p => bool_decide (c ≤ p)%Z
  | None => true
  end
  && match stored self data with
     | Some s => bool_decide (c < s)%Z
     | None => true
     end.
End generation_statements.

(** Packets and reactions over string keys and string items, for concrete
    runs. *)
Definition gen_calc : @GenerationCalculator.t string :=
  {| GenerationCalculator.gen_key := "generation" |}.

Definition mol_packet (name : string) (gen : option Z)
    : @GenerationCalculator.DataPacketE string _ _ string :=
  {| GenerationCalculator.item := name;
     GenerationCalculator.meta := (λ g, {[ "generation" := g ]}) <$> gen |}.

Definition reaction_of
    (rs ps : list (@GenerationCalculator.DataPacketE string _ _ string))
    : @GenerationCalculator.ReactionExplicit string _ _ string string :=
  {| GenerationCalculator.operator := "op";
     GenerationCalculator.reactants := rs;
     GenerationCalculator.products := ps |}.

(** The representation invariant of a reaction unit: both collections are
    duplicate-free, and a filled memo slot holds what its property
    computes. *)
Definition RxnDatBasic_pickle (op : Identifier) (prods reacts : list Identifier)
    : Pickle.payload :=
  Pickle.dumps
    (PTuple [PStr op; RxnDatBasic.pickled prods; RxnDatBasic.pickled reacts]).

Definition RxnDatBasic_consistent (r : RxnDatBasic.t) : Prop :=
  NoDup (RxnDatBasic._products r)
  ∧ NoDup (RxnDatBasic._reactants r)
  ∧ (∀ b, RxnDatBasic._blob r = Some b →
          b = RxnDatBasic_pickle (RxnDatBasic._operator r)
                (RxnDatBasic._products r) (RxnDatBasic._reactants r))
  ∧ (∀ u, RxnDatBasic._uid r = Some u →
          u = (RxnDatBasic._operator r, sorted (RxnDatBasic._products r),
               sorted (RxnDatBasic._reactants r))).

(** Concrete operator units and engine outcomes, for concrete runs. *)
Definition runtime_error : exn :=
  Exn (OtherException "RuntimeError") "Pre-condition Violation" None.

Definition valence_error : exn :=
  Exn AtomValenceException "Explicit valence for atom # 1 C is too high" None.

Definition quote_repr (s : string) : string := "'" +:+ s +:+ "'".

Definition count_repr `{ChemistryEngine} (reactants : list MolDatBase)
    : string :=
  pretty (length reactants) +:+ " reactants".

Definition example_template : ChemicalReaction :=
  {| rxn_binary := String.list_byte_of_string "[C:1]>>[C:1]O" |}.

Definition example_operator (outcome : result (list (list string)))
    : @OpDatBasic.t (string_engine outcome) :=
  {| OpDatBasic._blob := None;
     OpDatBasic._engine := string_network_engine outcome;
     OpDatBasic._kekulize := PBool true;
     OpDatBasic._rdkitrxn := rxn_object example_template;
     OpDatBasic._smarts := None;
     OpDatBasic._templates := None;
     OpDatBasic._uid := None |}.

Definition example_reactants (outcome : result (list (list string)))
    : list (@MolDatBase (string_engine outcome)) :=
  [@MolV2 (string_engine outcome)
     {| MolDatBasicV2._blob := None; MolDatBasicV2._inchikey := None;
        MolDatBasicV2._rdkitmol := "CC" : @Mol (string_engine outcome);
        MolDatBasicV2._smiles := "CC" |}].

(** The representation invariant of a full-cache molecule unit: a filled
    memo slot holds what its property computes from the structural
    object. *)
Definition MolDatBasicV2_consistent `{ChemistryEngine}
    (u : MolDatBasicV2.t) : Prop :=
  (∀ b, MolDatBasicV2._blob u = Some b
        → b = Mol_ToBinary (MolDatBasicV2._rdkitmol u))
  ∧ (∀ k, MolDatBasicV2._inchikey u = Some k
          → k = MolToInchiKey (MolDatBasicV2._rdkitmol u))
  ∧ MolDatBasicV2._smiles u = MolToSmiles (MolDatBasicV2._rdkitmol u).

(** The representation invariant of an operator unit whose template is the
    reaction [r]: filled memo slots hold what their properties compute. *)
Definition OpDatBasic_consistent `{ChemistryEngine}
    (GetReactants : ChemicalReaction → list Mol) (r : ChemicalReaction)
    (u : OpDatBasic.t) : Prop :=
  as_rxn (OpDatBasic._rdkitrxn u) = Some r
  ∧ (∀ s, OpDatBasic._smarts u = Some s → s = ReactionToSmarts r)
  ∧ (∀ ts, OpDatBasic._templates u = Some ts → ts = GetReactants r).

(** [isinstance(reactant, interfaces.MolDatRDKit)] *)
Definition is_rdkit `{ChemistryEngine} (reactant : MolDatBase) : bool :=
  match rdkitmol_of reactant with
  | Some _ => true
  | None => false
  end.

(** An engine whose substructure test is equality of strings and whose
    reactions have the reactant templates [ts], for concrete runs. *)
Definition example_GetReactants (ts : list string) (_ : ChemicalReaction)
    : list string := ts.

Definition example_HasSubstructMatch (m template : string) : bool :=
  bool_decide (m = template).

(** The value of a comparison, without the units it returns. *)
Definition RxnDatBasic_less (a b : RxnDatBasic.t) : result bool :=
  (λ x, x.1.1) <$> RxnDatBasic.__lt__ a (RxnDatBasic.OtherRxn b).

Definition OpDatBasic_less `{ChemistryEngine} (a b : OpDatBasic.t)
    : result bool :=
  (λ x, x.1.1) <$> OpDatBasic.__lt__ a (OpDatBasic.OtherOp b).

(** An engine that cannot kekulize the molecule [bad], for concrete runs. *)
Definition kekulize_error : exn :=
  Exn KekulizeException "Can't kekulize mol" None.

Definition picky_engine (bad : string) : ChemistryEngine := {|
  Mol := string;
  Mol_ToBinary := String.list_byte_of_string;
  Mol_FromBinary := String.string_of_list_byte;
  MolToSmiles := λ m, m;
  MolToInchiKey := λ m, m;
  Kekulize := λ m, if bool_decide (m = bad) then Raise kekulize_error
                   else OK m;
  ReactionFromSmarts := λ s, OK {| rxn_binary := String.list_byte_of_string s |};
  ReactionToSmarts := λ r, String.string_of_list_byte (rxn_binary r);
  RunReactants := λ _ _, OK [];
  _processinput := λ molecule _ _,
    match molecule with
    | MolObj m => OK m
    | MolStr s => OK s
    | MolBytes b => OK (String.string_of_list_byte b)
    end;
|}.

Definition picky_operator (bad : string) : @OpDatBasic.t (picky_engine bad) :=
  {| OpDatBasic._blob := None;
     OpDatBasic._engine :=
       {| engine_Mol := λ m : @Mol (picky_engine bad),
            OK (@MolOther (picky_engine bad) m) |};
     OpDatBasic._kekulize := PBool true;
     OpDatBasic._rdkitrxn := rxn_object example_template;
     OpDatBasic._smarts := None;
     OpDatBasic._templates := None;
     OpDatBasic._uid := None |}.

Definition picky_molecule (bad m : string) : @MolDatBase (picky_engine bad) :=
  @MolV2 (picky_engine bad)
    {| MolDatBasicV2._blob := None; MolDatBasicV2._inchikey := None;
       MolDatBasicV2._rdkitmol := m : @Mol (picky_engine bad);
       MolDatBasicV2._smiles := m |}.

(** The entry of key [k] in the snapshot of a packet, if any. *)
Definition lookup_meta {K : Type} `{Countable K} {Item : Type}
    (k : K) (r : @GenerationCalculator.DataPacketE K _ _ Item) : option Z :=
  m ← GenerationCalculator.meta r; m !! k.

(** ** The result monad *)

Lemma result_bind_OK {A B} (m : result A) (f : A → result B) (b : B) :
  m ≫= f = OK b → ∃ a, m = OK a ∧ f a = OK b.
Proof. destruct m as [a|e]; simpl; [eauto|done]. Qed.

Lemma result_bind_Raise {A B} (m : result A) (f : A → result B) (e : exn) :
  m ≫= f = Raise e → m = Raise e ∨ ∃ a, m = OK a ∧ f a = Raise e.
Proof. destruct m as [a|e']; simpl; [eauto|]. intros [= ->]. by left. Qed.

Ltac bind_OK H :=
  let a := fresh "a" in
  let E := fresh "E" in
  apply result_bind_OK in H as (a & E & H).

(** ** The pickle machine *)

Section pickle_facts.
Import Pickle.

Lemma pop_mark_values vs st acc :
  pop_mark ((Val <$> reverse vs) ++ Mark :: st) acc = Some (vs ++ acc, st).
Proof.
  revert acc. induction vs as [|v vs IH] using rev_ind; intros acc.
  - reflexivity.
  - rewrite reverse_snoc. simpl. rewrite IH. by rewrite <- app_assoc.
Qed.

Lemma py_dedupe_distinct_from seen items :
  py_distinct_from seen items = true → py_dedupe_from seen items = items.
Proof.
  revert seen. induction items as [|x l IH]; intros seen; simpl; [done|].
  intros [Hx Hl]%andb_true_iff. apply negb_true_iff in Hx. rewrite Hx.
  by rewrite IH.
Qed.

Lemma py_distinct_dedupe_from seen items :
  py_distinct_from seen (py_dedupe_from seen items) = true.
Proof.
  revert seen. induction items as [|x l IH]; intros seen; simpl; [done|].
  destruct (existsb (py_eq x) seen) eqn:Ex; [done|]. simpl.
  by rewrite Ex, IH.
Qed.

Lemma forallb_dedupe_from (P : pyval → bool) seen items :
  forallb P items = true → forallb P (py_dedupe_from seen items) = true.
Proof.
  revert seen. induction items as [|x l IH]; intros seen; simpl; [done|].
  intros [Hx Hl]%andb_true_iff.
  destruct (existsb (py_eq x) seen); simpl; [by apply IH|].
  rewrite Hx. by apply IH.
Qed.

Lemma run_prefix_app h p q st :
  run_prefix h (p ++ q) st = run_prefix h p st ≫= run_prefix h q.
Proof.
  revert st. induction p as [|op p IH]; intros st; simpl; [done|].
  destruct (step h op st); simpl; auto.
Qed.

Lemma run_app h p q st st' :
  run_prefix h p st = Some st' → run h (p ++ q) st = run h q st'.
Proof.
  revert st. induction p as [|op p IH]; intros st; simpl.
  - by intros [= ->].
  - destruct (step h op st); simpl; auto; discriminate.
Qed.

Lemma step_ext h1 h2 op st :
  (∀ m n, h1 m n = h2 m n) → step h1 op st = step h2 op st.
Proof. intros E. destruct op; simpl; try done. by rewrite E. Qed.

Lemma run_ext h1 h2 p st :
  (∀ m n, h1 m n = h2 m n) → run h1 p st = run h2 p st.
Proof.
  intros E. revert st. induction p as [|op p IH]; intros st; simpl; [done|].
  rewrite (step_ext h1 h2 op st E). destruct (step h2 op st); auto.
Qed.

Lemma run_prefix_ext h1 h2 p st :
  (∀ m n, h1 m n = h2 m n) → run_prefix h1 p st = run_prefix h2 p st.
Proof.
  intros E. revert st. induction p as [|op p IH]; intros st; simpl; [done|].
  rewrite (step_ext h1 h2 op st E). destruct (step h2 op st); auto.
Qed.

Lemma find_class_guarded m n : find_class m n = guarded safe_class forbidden m n.
Proof.
  unfold find_class, guarded, safe_class, getattr_builtins.
  destruct (bool_decide (m = "builtins")) eqn:Em; simpl; [|done].
  apply bool_decide_eq_true in Em as ->. done.
Qed.
End pickle_facts.

Section pickle_round_trip.
Import Pickle.
Variable allow : string → string → bool.
Variable err : string → string → exn.

Local Abbreviation h := (guarded allow err).

Lemma run_prefix_save_all items :
  Forall (λ v, ∀ st, well_formed v = true → first_rejected allow v = None →
               run_prefix h (save v) st = Some (Val v :: st)) items →
  ∀ st, forallb well_formed items = true →
        first_rejected_all allow items = None →
        run_prefix h (save_all items) st
        = Some ((Val <$> reverse items) ++ st).
Proof.
  induction 1 as [|x l Hx _ IH]; intros st Hwf Hfr; [done|].
  simpl in Hwf. apply andb_true_iff in Hwf as [Hwx Hwl].
  simpl in Hfr. destruct (first_rejected allow x) eqn:Ex; [done|].
  change (save_all (x :: l)) with (save x ++ save_all l).
  rewrite run_prefix_app, (Hx st Hwx eq_refl). simpl.
  rewrite (IH _ Hwl Hfr), reverse_cons, fmap_app, <- app_assoc. done.
Qed.

(** The machine rebuilds every value whose class references the guard
    admits. *)
Lemma run_prefix_save v :
  ∀ st, well_formed v = true → first_rejected allow v = None →
        run_prefix h (save v) st = Some (Val v :: st).
Proof.
  induction v as [| | | | |items IH|items IH|m n|m n args IH]
    using pyval_nested_ind; intros st Hwf Hfr; try done.
  - by destruct b.
  - change (save (PTuple items)) with (MARK :: save_all items ++ [TUPLE]).
    change (run_prefix h (save_all items ++ [TUPLE]) (Mark :: st)
            = Some (Val (PTuple items) :: st)).
    rewrite run_prefix_app, (run_prefix_save_all items IH _ Hwf Hfr). simpl.
    by rewrite pop_mark_values, app_nil_r.
  - change (well_formed (PFrozenset items))
      with (forallb well_formed items && py_distinct items) in Hwf.
    apply andb_true_iff in Hwf as [Hwf Hd].
    change (save (PFrozenset items))
      with (MARK :: save_all items ++ [FROZENSET]).
    change (run_prefix h (save_all items ++ [FROZENSET]) (Mark :: st)
            = Some (Val (PFrozenset items) :: st)).
    rewrite run_prefix_app, (run_prefix_save_all items IH _ Hwf Hfr). simpl.
    rewrite pop_mark_values, app_nil_r. unfold py_dedupe.
    by rewrite (py_dedupe_distinct_from [] items Hd).
  - simpl in *. unfold guarded. by destruct (allow m n).
  - change (well_formed (PObject m n args))
      with (negb (container_class m n) && forallb well_formed args) in Hwf.
    apply andb_true_iff in Hwf as [Hc Hwf].
    change (first_rejected allow (PObject m n args))
      with (if allow m n then first_rejected_all allow args
            else Some (m, n)) in Hfr.
    change (save (PObject m n args))
      with (GLOBAL m n :: MARK :: save_all args ++ [TUPLE; REDUCE]).
    simpl. unfold guarded at 1. destruct (allow m n); [|done].
    rewrite run_prefix_app, (run_prefix_save_all args IH _ Hwf Hfr). simpl.
    rewrite pop_mark_values, app_nil_r. simpl.
    unfold call_class. unfold container_class in Hc.
    apply negb_true_iff, orb_false_iff in Hc as [-> ->]. done.
Qed.

Lemma run_save_all_rejected items c :
  Forall (λ v, ∀ rest st, well_formed v = true →
               first_rejected allow v = Some c →
               run h (save v ++ rest) st = Raise (err c.1 c.2)) items →
  ∀ rest st, forallb well_formed items = true →
        first_rejected_all allow items = Some c →
        run h (save_all items ++ rest) st = Raise (err c.1 c.2).
Proof.
  induction 1 as [|x l Hx _ IH]; intros rest st Hwf Hfr; [done|].
  simpl in Hwf. apply andb_true_iff in Hwf as [Hwx Hwl].
  simpl in Hfr.
  change (save_all (x :: l)) with (save x ++ save_all l).
  rewrite <- app_assoc.
  destruct (first_rejected allow x) as [c'|] eqn:Ex.
  - injection Hfr as ->. by apply Hx.
  - rewrite (run_app _ _ _ _ _ (run_prefix_save x st Hwx Ex)). by apply IH.
Qed.

(** The machine raises at the first class reference the guard rejects. *)
Lemma run_save_rejected v c :
  ∀ rest st, well_formed v = true → first_rejected allow v = Some c →
             run h (save v ++ rest) st = Raise (err c.1 c.2).
Proof.
  induction v as [| | | | |items IH|items IH|m n|m n args IH]
    using pyval_nested_ind; intros rest st Hwf Hfr; try done.
  - change (save (PTuple items)) with (MARK :: save_all items ++ [TUPLE]).
    change (run h ((save_all items ++ [TUPLE]) ++ rest) (Mark :: st)
            = Raise (err c.1 c.2)).
    rewrite <- app_assoc. by apply run_save_all_rejected.
  - change (well_formed (PFrozenset items))
      with (forallb well_formed items && py_distinct items) in Hwf.
    apply andb_true_iff in Hwf as [Hwf Hd].
    change (save (PFrozenset items))
      with (MARK :: save_all items ++ [FROZENSET]).
    change (run h ((save_all items ++ [FROZENSET]) ++ rest) (Mark :: st)
            = Raise (err c.1 c.2)).
    rewrite <- app_assoc. by apply run_save_all_rejected.
  - simpl in *. unfold guarded. destruct (allow m n); [done|].
    by injection Hfr as <-.
  - change (well_formed (PObject m n args))
      with (negb (container_class m n) && forallb well_formed args) in Hwf.
    apply andb_true_iff in Hwf as [Hc Hwf].
    change (first_rejected allow (PObject m n args))
      with (if allow m n then first_rejected_all allow args
            else Some (m, n)) in Hfr.
    change (save (PObject m n args))
      with (GLOBAL m n :: MARK :: save_all args ++ [TUPLE; REDUCE]).
    simpl. unfold guarded at 1. destruct (allow m n).
    + change (run h ((save_all args ++ [TUPLE; REDUCE]) ++ rest)
                (Mark :: Val (PClass m n) :: st) = Raise (err c.1 c.2)).
      rewrite <- app_assoc. by apply run_save_all_rejected.
    + by injection Hfr as <-.
Qed.
End pickle_round_trip.

(** A value made of data only is well formed and refers to no class that
    [find_class] rejects. *)
Lemma data_only_loadable v :
  data_only v = true →
  well_formed v = true ∧ first_rejected safe_class v = None.
Proof.
  induction v as [| | | | |items IH|items IH|m n|m n args IH]
    using pyval_nested_ind; intros Hd; try done.
  - change (forallb data_only items = true) in Hd.
    change (forallb well_formed items = true
            ∧ first_rejected_all safe_class items = None).
    induction IH as [|x l Hx _ IHl]; [done|]. simpl in *.
    apply andb_true_iff in Hd as [Hdx Hdl].
    destruct (Hx Hdx) as [-> ->]. by apply IHl.
  - change (forallb data_only items && py_distinct items = true) in Hd.
    apply andb_true_iff in Hd as [Hd Hdist].
    change (forallb well_formed items && py_distinct items = true
            ∧ first_rejected_all safe_class items = None).
    rewrite Hdist, andb_true_r. clear Hdist.
    induction IH as [|x l Hx _ IHl]; [done|]. simpl in *.
    apply andb_true_iff in Hd as [Hdx Hdl].
    destruct (Hx Hdx) as [-> ->]. by apply IHl.
  - simpl in *. by rewrite Hd.
Qed.

(** [loads] inverts [pickle.dumps] on values made of data only. *)
Lemma loads_dumps v : data_only v = true → loads (Pickle.dumps v) = OK v.
Proof.
  intros [Hwf Hfr]%data_only_loadable. unfold loads, Pickle.Unpickler_load.
  rewrite (run_ext _ _ _ _ find_class_guarded). unfold Pickle.dumps.
  by rewrite (run_app _ _ _ _ _ (run_prefix_save _ forbidden v [] Hwf Hfr)).
Qed.

(** [pickle.loads], which resolves every reference, inverts [pickle.dumps]
    on every well-formed value. *)
Lemma plain_loads_dumps v :
  well_formed v = true → Pickle.plain_loads (Pickle.dumps v) = OK v.
Proof.
  intros Hwf. unfold Pickle.plain_loads, Pickle.Unpickler_load, Pickle.dumps.
  assert (Hfr : first_rejected (λ _ _, true) v = None).
  { clear Hwf.
    induction v as [| | | | |items IH|items IH|m n|m n args IH]
      using pyval_nested_ind; try done.
    - change (first_rejected_all (λ _ _, true) items = None).
      induction IH as [|x l Hx _ IHl]; [done|]. simpl. by rewrite Hx.
    - change (first_rejected_all (λ _ _, true) items = None).
      induction IH as [|x l Hx _ IHl]; [done|]. simpl. by rewrite Hx.
    - change (first_rejected_all (λ _ _, true) args = None).
      induction IH as [|x l Hx _ IHl]; [done|]. simpl. by rewrite Hx. }
  rewrite (run_ext _ (guarded (λ _ _, true) forbidden) _ _
             (λ m n, eq_refl)).
  by rewrite (run_app _ _ _ _ _ (run_prefix_save _ forbidden v [] Hwf Hfr)).
Qed.

(** ** The trust boundary *)

Lemma safe_builtins_classes_spec name :
  name ∈ _safe_builtins_classes ↔ name = "frozenset" ∨ name = "tuple".
Proof. unfold _safe_builtins_classes. set_solver. Qed.

Lemma safe_class_spec module name :
  safe_class module name = true
  ↔ module = "builtins" ∧ name ∈ _safe_builtins_classes.
Proof.
  unfold safe_class. rewrite andb_true_iff, !bool_decide_eq_true. done.
Qed.

Lemma find_class_OK module name c :
  find_class module name = OK c →
  module = "builtins" ∧ name ∈ _safe_builtins_classes
  ∧ c = getattr_builtins name.
Proof.
  unfold find_class. fold (safe_class module name).
  destruct (safe_class module name) eqn:E; [|done].
  apply safe_class_spec in E as [-> ?]. by intros [= <-].
Qed.

Lemma find_class_Raise module name :
  ¬ (module = "builtins" ∧ name ∈ _safe_builtins_classes) →
  find_class module name = Raise (forbidden module name).
Proof.
  intros Hn. unfold find_class. fold (safe_class module name).
  destruct (safe_class module name) eqn:E; [|done].
  by apply safe_class_spec in E.
Qed.

Section data_only_facts.
Import Pickle.

Lemma py_iter_data_only v items :
  data_only v = true → py_iter v = OK items →
  forallb data_only items = true.
Proof.
  destruct v; simpl; intros Hd [= <-]; try done.
  - induction s; simpl; auto.
  - induction b; simpl; auto.
  - by apply andb_true_iff in Hd as [? _].
Qed.

Lemma data_only_frozenset items :
  forallb data_only items = true →
  data_only (PFrozenset (py_dedupe items)) = true.
Proof.
  intros Hd.
  change (forallb data_only (py_dedupe items) && py_distinct (py_dedupe items)
          = true).
  unfold py_dedupe, py_distinct.
  by rewrite forallb_dedupe_from, py_distinct_dedupe_from.
Qed.

Lemma reduce_data_only callable args v :
  data_only callable = true → data_only args = true →
  reduce callable args = OK v → data_only v = true.
Proof.
  intros Hc Ha. unfold reduce. destruct args as [| | | | |a| | |]; try done.
  destruct callable as [| | | | | | |m n|]; try done.
  simpl in Hc. apply safe_class_spec in Hc as [-> Hn].
  apply safe_builtins_classes_spec in Hn.
  change (data_only (PTuple a)) with (forallb data_only a) in Ha.
  unfold call_class.
  destruct Hn as [-> | ->]; simpl;
    destruct a as [|x [|y a]]; try done; try (by intros [= <-]);
    simpl in Ha; apply andb_true_iff in Ha as [Hx _];
    destruct (py_iter x) as [items|] eqn:Ei; simpl; try done;
    intros [= <-].
  - apply data_only_frozenset. exact (py_iter_data_only x items Hx Ei).
  - exact (py_iter_data_only x items Hx Ei).
Qed.

Lemma pop_mark_data_only st acc items st' :
  forallb slot_data_only st = true → forallb data_only acc = true →
  pop_mark st acc = Some (items, st') →
  forallb data_only items = true ∧ forallb slot_data_only st' = true.
Proof.
  revert acc. induction st as [|[v|] st IH]; intros acc Hst Hacc; simpl.
  - done.
  - simpl in Hst. apply andb_true_iff in Hst as [Hv Hst].
    apply IH; [done|]. simpl. by rewrite Hv.
  - by intros [= <- <-].
Qed.

Lemma step_data_only op st :
  forallb slot_data_only st = true →
  match step find_class op st with
  | Next st' => forallb slot_data_only st' = true
  | Done v => data_only v = true
  | Fail _ => True
  end.
Proof.
  intros Hst. destruct op; simpl; try done.
  - destruct (pop_mark st []) as [[items st']|] eqn:Ep; [|done].
    destruct (pop_mark_data_only st [] items st' Hst eq_refl Ep) as [Hi Hs].
    simpl. by rewrite Hs, andb_true_r.
  - destruct (pop_mark st []) as [[items st']|] eqn:Ep; [|done].
    destruct (pop_mark_data_only st [] items st' Hst eq_refl Ep) as [Hi Hs].
    cbn [forallb slot_data_only].
    by rewrite (data_only_frozenset items Hi), Hs.
  - destruct (find_class module name) as [c|] eqn:Ef; [|done].
    apply find_class_OK in Ef as (-> & Hn & ->). simpl.
    rewrite Hst, andb_true_r. apply safe_class_spec. done.
  - destruct st as [|[args|] [|[callable|] st]]; try done.
    simpl in Hst. apply andb_true_iff in Hst as [Ha Hst].
    apply andb_true_iff in Hst as [Hc Hst].
    simpl. destruct (reduce callable args) as [v|] eqn:Er; [|done].
    simpl. by rewrite (reduce_data_only _ _ _ Hc Ha Er).
  - destruct st as [|[v|] st]; try done.
    simpl in Hst. by apply andb_true_iff in Hst as [Hv _].
Qed.

Lemma run_data_only p st v :
  forallb slot_data_only st = true →
  run find_class p st = OK v → data_only v = true.
Proof.
  revert st. induction p as [|op p IH]; intros st Hst; simpl; [done|].
  pose proof (step_data_only op st Hst) as Hs.
  destruct (step find_class op st); [by apply IH|by intros [= <-]|done].
Qed.

(** Whatever the payload, the value that [loads] returns holds no instance
    of a class outside the allow-list. *)
Lemma loads_data_only p v : loads p = OK v → data_only v = true.
Proof. by apply run_data_only. Qed.
End data_only_facts.

(** C1. [find_class] resolves a reference exactly when its module is
    [builtins] and its name is in the allow-list, which is
    [{frozenset, tuple}]; on any other reference it raises the
    forbidden-type [UnpicklingError], and a payload in which [loads] reaches
    such a reference makes [loads] raise that error instead of returning a
    value. *)
Theorem find_class_fails_closed :
  (∀ name, name ∈ _safe_builtins_classes
           ↔ name = "frozenset" ∨ name = "tuple")
  ∧ (∀ module name c,
       find_class module name = OK c →
       module = "builtins" ∧ name ∈ _safe_builtins_classes
       ∧ c = getattr_builtins name)
  ∧ (∀ module name,
       module = "builtins" → name ∈ _safe_builtins_classes →
       find_class module name = OK (getattr_builtins name))
  ∧ (∀ module name,
       ¬ (module = "builtins" ∧ name ∈ _safe_builtins_classes) →
       find_class module name = Raise (forbidden module name)
       ∧ exn_type (forbidden module name) = UnpicklingError)
  ∧ (∀ before module name after st,
       ¬ (module = "builtins" ∧ name ∈ _safe_builtins_classes) →
       Pickle.run_prefix find_class before [] = Some st →
       loads (before ++ Pickle.GLOBAL module name :: after)
       = Raise (forbidden module name)).
Proof.
  split; [exact safe_builtins_classes_spec|].
  split; [exact find_class_OK|].
  split.
  { intros module name -> Hn. unfold find_class.
    by rewrite !bool_decide_eq_true_2. }
  split.
  { intros module name Hn. by rewrite find_class_Raise. }
  intros before module name after st Hn Hrun.
  unfold loads, Pickle.Unpickler_load.
  rewrite (run_app _ _ _ _ _ Hrun). simpl. by rewrite find_class_Raise.
Qed.

Lemma find_class_fails_closed_witness :
  loads [Pickle.MARK; Pickle.BINUNICODE "a"; Pickle.GLOBAL "os" "system";
         Pickle.STOP]
  = Raise (forbidden "os" "system").
Proof.
  apply (proj2 (proj2 (proj2 (proj2 find_class_fails_closed)))
           [Pickle.MARK; Pickle.BINUNICODE "a"] "os" "system" [Pickle.STOP]
           [Pickle.Val (PStr "a"); Pickle.Mark]).
  - intros [? _]. discriminate.
  - reflexivity.
Defined.

(** ** Molecule units *)


(** Once built from a structural object, both profiles expose the canonical
    string and the binary encoding of that object. *)
Lemma MolDatBasic_from_object `{ChemistryEngine} (m : Mol) :
  MolDatBasicV1.uid (MolDatBasicV1._buildfrommol m) = MolToSmiles m
  ∧ MolDatBasicV1.blob (MolDatBasicV1._buildfrommol m) = Mol_ToBinary m.
Proof. done. Qed.

(** ** Reaction units *)

Lemma remove_dups_NoDup (l : list Identifier) : NoDup l → remove_dups l = l.
Proof.
  induction 1 as [|x l Hx _ IH]; simpl; [done|].
  destruct (decide_rel elem_of x l); [done|]. by rewrite IH.
Qed.

Lemma frozenset_NoDup l : NoDup (frozenset l).
Proof. apply NoDup_remove_dups. Qed.

Lemma frozenset_same_elements l1 l2 :
  (∀ x, x ∈ l1 ↔ x ∈ l2) → frozenset l1 ≡ₚ frozenset l2.
Proof.
  intros E. apply NoDup_Permutation; [apply frozenset_NoDup..|].
  intros x. unfold frozenset. by rewrite !elem_of_remove_dups.
Qed.

(** [sorted] returns the ascending arrangement of its argument. *)
Lemma sorted_spec l : Sorted String.le (sorted l) ∧ sorted l ≡ₚ l.
Proof.
  split; [apply (Sorted_merge_sort String.le)|apply merge_sort_Permutation].
Qed.

Lemma sorted_Permutation l1 l2 : l1 ≡ₚ l2 → sorted l1 = sorted l2.
Proof.
  intros E. apply (Sorted_unique String.le); try apply sorted_spec.
  by rewrite !(proj2 (sorted_spec _)).
Qed.

(** The sorted enumeration of a frozenset depends on its elements only. *)
Lemma sorted_frozenset_same_elements l1 l2 :
  (∀ x, x ∈ l1 ↔ x ∈ l2) → sorted (frozenset l1) = sorted (frozenset l2).
Proof. intros E. by apply sorted_Permutation, frozenset_same_elements. Qed.

Lemma RxnDatBasic_init_triple op rs ps :
  RxnDatBasic.__init__ (Some op) (Some rs) (Some ps) None
  = OK {| RxnDatBasic._blob := None; RxnDatBasic._operator := op;
          RxnDatBasic._products := frozenset ps;
          RxnDatBasic._reactants := frozenset rs;
          RxnDatBasic._uid := None |}.
Proof. reflexivity. Qed.

Lemma sorted_characterised (l ids : list Identifier) :
  Sorted String.le l → NoDup l → (∀ x, x ∈ l ↔ x ∈ ids) →
  l = sorted (frozenset ids).
Proof.
  intros Hs Hnd Hel. apply (Sorted_unique String.le); [done|apply sorted_spec|].
  rewrite (proj2 (sorted_spec _)).
  apply NoDup_Permutation; [done|apply frozenset_NoDup|].
  intros x. unfold frozenset. by rewrite elem_of_remove_dups.
Qed.

(** C4. A reaction unit built from (operator, reactants, products) has the
    uid [(operator, sorted(products), sorted(reactants))], where the sorted
    component of a collection is the one list that is in ascending order,
    holds no identifier twice and holds exactly the identifiers of the
    collection; two units built with the same operator from reactant and
    product collections that are permutations of each other have equal
    uids; two units whose operators differ have different uids. *)
Theorem RxnDatBasic_uid_order_invariant :
  (∀ op rs ps,
     ∃ r sps srs,
       RxnDatBasic.__init__ (Some op) (Some rs) (Some ps) None = OK r
       ∧ (RxnDatBasic.uid r).1 = (op, sps, srs)
       ∧ Sorted String.le sps ∧ NoDup sps ∧ (∀ x, x ∈ sps ↔ x ∈ ps)
       ∧ Sorted String.le srs ∧ NoDup srs ∧ (∀ x, x ∈ srs ↔ x ∈ rs)
       ∧ (∀ l, Sorted String.le l → NoDup l → (∀ x, x ∈ l ↔ x ∈ ps) →
               l = sps)
       ∧ (∀ l, Sorted String.le l → NoDup l → (∀ x, x ∈ l ↔ x ∈ rs) →
               l = srs))
  ∧ (∀ op rs1 ps1 rs2 ps2,
       rs1 ≡ₚ rs2 → ps1 ≡ₚ ps2 →
       ∃ r1 r2,
         RxnDatBasic.__init__ (Some op) (Some rs1) (Some ps1) None = OK r1
         ∧ RxnDatBasic.__init__ (Some op) (Some rs2) (Some ps2) None = OK r2
         ∧ (RxnDatBasic.uid r1).1 = (RxnDatBasic.uid r2).1)
  ∧ (∀ op1 rs1 ps1 op2 rs2 ps2,
       op1 ≠ op2 →
       ∃ r1 r2,
         RxnDatBasic.__init__ (Some op1) (Some rs1) (Some ps1) None = OK r1
         ∧ RxnDatBasic.__init__ (Some op2) (Some rs2) (Some ps2) None = OK r2
         ∧ (RxnDatBasic.uid r1).1 ≠ (RxnDatBasic.uid r2).1).
Proof.
  split; [|split].
  - intros op rs ps. do 3 eexists. rewrite RxnDatBasic_init_triple.
    split; [done|]. split; [done|].
    assert (Hcan : ∀ l, Sorted String.le (sorted (frozenset l))
                        ∧ NoDup (sorted (frozenset l))
                        ∧ ∀ x, x ∈ sorted (frozenset l) ↔ x ∈ l).
    { intros l. destruct (sorted_spec (frozenset l)) as [Hs Hp].
      split; [done|]. split.
      - rewrite Hp. apply frozenset_NoDup.
      - intros x. rewrite Hp. apply elem_of_remove_dups. }
    destruct (Hcan ps) as (? & ? & ?), (Hcan rs) as (? & ? & ?).
    do 6 (split; [done|]).
    split; intros l; apply sorted_characterised.
  - intros op rs1 ps1 rs2 ps2 Hrs Hps. do 2 eexists.
    rewrite !RxnDatBasic_init_triple. do 2 (split; [done|]). simpl.
    f_equal; [f_equal|]; apply sorted_frozenset_same_elements;
      intros x; by rewrite ?Hrs, ?Hps.
  - intros op1 rs1 ps1 op2 rs2 ps2 Hop. do 2 eexists.
    rewrite !RxnDatBasic_init_triple. do 2 (split; [done|]). simpl.
    congruence.
Qed.

Lemma RxnDatBasic_uid_order_invariant_witness :
  ∃ r1 r2,
    RxnDatBasic.__init__ (Some "op") (Some ["a"; "b"]) (Some ["c"]) None
    = OK r1
    ∧ RxnDatBasic.__init__ (Some "op") (Some ["b"; "a"]) (Some ["c"]) None
      = OK r2
    ∧ (RxnDatBasic.uid r1).1 = (RxnDatBasic.uid r2).1.
Proof.
  apply (proj1 (proj2 RxnDatBasic_uid_order_invariant)
           "op" ["a"; "b"] ["c"] ["b"; "a"] ["c"]).
  - apply perm_swap.
  - reflexivity.
Defined.

Lemma traverse_as_identifier ids :
  traverse as_identifier (PStr <$> ids) = OK ids.
Proof. induction ids as [|x l IH]; csimpl; [done|]. by rewrite IH. Qed.

Lemma existsb_py_eq_PStr (x : string) (seen : list string) :
  existsb (py_eq (PStr x)) (PStr <$> seen) = bool_decide (x ∈ seen).
Proof.
  induction seen as [|y l IH].
  - symmetry. apply bool_decide_eq_false_2, not_elem_of_nil.
  - change (bool_decide (x = y) || existsb (py_eq (PStr x)) (PStr <$> l)
            = bool_decide (x ∈ y :: l)).
    rewrite IH. apply Bool.eq_iff_eq_true.
    rewrite orb_true_iff, !bool_decide_eq_true, elem_of_cons. done.
Qed.

Lemma py_distinct_PStr (seen ids : list string) :
  NoDup ids → (∀ x, x ∈ ids → x ∉ seen) →
  py_distinct_from (PStr <$> seen) (PStr <$> ids) = true.
Proof.
  intros Hnd. revert seen. induction Hnd as [|x l Hx _ IH]; intros seen Hs;
    [done|].
  change (negb (existsb (py_eq (PStr x)) (PStr <$> seen))
          && py_distinct_from (PStr <$> x :: seen) (PStr <$> l) = true).
  rewrite existsb_py_eq_PStr, bool_decide_eq_false_2 by (apply Hs; by left).
  simpl. apply (IH (x :: seen)). intros y Hy [->|Hin]%elem_of_cons; [done|].
  apply (Hs y); [by right|done].
Qed.

Lemma data_only_pickled ids :
  NoDup ids → data_only (RxnDatBasic.pickled ids) = true.
Proof.
  intros Hnd. unfold RxnDatBasic.pickled.
  change (forallb data_only (PStr <$> ids) && py_distinct (PStr <$> ids)
          = true).
  apply andb_true_iff. split.
  - clear. induction ids as [|x l IH]; csimpl; auto.
  - apply (py_distinct_PStr [] ids Hnd). intros x _. apply not_elem_of_nil.
Qed.

Lemma frozenset_of_pickled ids :
  frozenset_of (RxnDatBasic.pickled ids) = OK (frozenset ids).
Proof. unfold frozenset_of. simpl. by rewrite traverse_as_identifier. Qed.

Lemma loads_RxnDatBasic_pickle op prods reacts :
  NoDup prods → NoDup reacts →
  loads (RxnDatBasic_pickle op prods reacts)
  = OK (PTuple [PStr op; RxnDatBasic.pickled prods;
                RxnDatBasic.pickled reacts]).
Proof.
  intros Hp Hr. apply loads_dumps.
  change (true && (data_only (RxnDatBasic.pickled prods)
                   && (data_only (RxnDatBasic.pickled reacts) && true))
          = true).
  by rewrite !data_only_pickled.
Qed.

(** Construction from a serialized reaction ignores the other arguments. *)
Lemma RxnDatBasic_init_blob op' rs' ps' op prods reacts :
  NoDup prods → NoDup reacts →
  RxnDatBasic.__init__ op' rs' ps'
    (Some (RxnDatBasic_pickle op prods reacts))
  = OK {| RxnDatBasic._blob := None; RxnDatBasic._operator := op;
          RxnDatBasic._products := frozenset prods;
          RxnDatBasic._reactants := frozenset reacts;
          RxnDatBasic._uid := None |}.
Proof.
  intros Hp Hr. unfold RxnDatBasic.__init__.
  rewrite (loads_RxnDatBasic_pickle op prods reacts Hp Hr). simpl.
  by rewrite !frozenset_of_pickled.
Qed.

Lemma frozenset_of_OK v ids :
  frozenset_of v = OK ids → ∃ l, ids = frozenset l.
Proof.
  unfold frozenset_of. intros Hf. bind_OK Hf. bind_OK Hf.
  injection Hf as <-. eauto.
Qed.

Lemma RxnDatBasic_init_consistent op rs ps reaction r :
  RxnDatBasic.__init__ op rs ps reaction = OK r → RxnDatBasic_consistent r.
Proof.
  unfold RxnDatBasic.__init__. intros Hr.
  apply result_bind_OK in Hr as ([[o p] q] & Hd & Hr). injection Hr as <-.
  assert ((∃ l, p = frozenset l) ∧ (∃ l, q = frozenset l))
    as [[lp ->] [lq ->]].
  { destruct reaction as [b|].
    - bind_OK Hd. bind_OK Hd. bind_OK Hd. bind_OK Hd.
      injection Hd as <- <- <-.
      match goal with H : getitem _ 1 ≫= _ = _ |- _ => bind_OK H end.
      match goal with H : getitem _ 2 ≫= _ = _ |- _ => bind_OK H end.
      eauto using frozenset_of_OK.
    - destruct op as [o'|], rs as [q'|], ps as [p'|]; try done.
      injection Hd as <- <- <-. eauto. }
  repeat split; simpl; try apply frozenset_NoDup; done.
Qed.

Lemma RxnDatBasic_blob_consistent r :
  RxnDatBasic_consistent r →
  (RxnDatBasic.blob r).1
  = RxnDatBasic_pickle (RxnDatBasic._operator r) (RxnDatBasic._products r)
      (RxnDatBasic._reactants r)
  ∧ RxnDatBasic_consistent (RxnDatBasic.blob r).2.
Proof.
  intros Hc. unfold RxnDatBasic.blob.
  destruct (RxnDatBasic._blob r) as [b|] eqn:Eb; simpl.
  - split; [|done]. destruct Hc as (_ & _ & Hb & _). by apply Hb.
  - split; [done|]. destruct Hc as (Hp & Hr & _ & Hu).
    refine (conj Hp (conj Hr (conj _ Hu))). by intros b [= <-].
Qed.

Lemma RxnDatBasic_uid_consistent r :
  RxnDatBasic_consistent r →
  (RxnDatBasic.uid r).1
  = (RxnDatBasic._operator r, sorted (RxnDatBasic._products r),
     sorted (RxnDatBasic._reactants r))
  ∧ RxnDatBasic_consistent (RxnDatBasic.uid r).2.
Proof.
  intros Hc. unfold RxnDatBasic.uid.
  destruct (RxnDatBasic._uid r) as [u|] eqn:Eu; simpl.
  - split; [|done]. destruct Hc as (_ & _ & _ & Hu). by apply Hu.
  - split; [done|]. destruct Hc as (Hp & Hr & Hb & _).
    refine (conj Hp (conj Hr (conj Hb _))). by intros u [= <-].
Qed.

(** A reaction unit is rebuilt from its own blob with an equal uid. *)
Lemma RxnDatBasic_blob_round_trip r :
  RxnDatBasic_consistent r →
  ∃ r', RxnDatBasic.__init__ None None None (Some (RxnDatBasic.blob r).1)
        = OK r'
        ∧ (RxnDatBasic.uid r').1 = (RxnDatBasic.uid r).1
        ∧ RxnDatBasic.operator r' = RxnDatBasic.operator r
        ∧ RxnDatBasic.products r' = RxnDatBasic.products r
        ∧ RxnDatBasic.reactants r' = RxnDatBasic.reactants r.
Proof.
  intros Hc. destruct (RxnDatBasic_blob_consistent r Hc) as [-> _].
  destruct (RxnDatBasic_uid_consistent r Hc) as [-> _].
  destruct Hc as (Hp & Hr & _ & _).
  eexists. split; [by apply RxnDatBasic_init_blob|].
  unfold frozenset. rewrite !remove_dups_NoDup by done. done.
Qed.

Section no_insufficient_arguments.
Import Pickle.

Lemma step_not_insufficient op st e :
  step find_class op st = Fail e → e ≠ RxnDatBasic.insufficient_arguments.
Proof.
  destruct op; simpl; try done.
  - destruct (pop_mark st []) as [[??]|]; [done|]. by intros [= <-].
  - destruct (pop_mark st []) as [[??]|]; [done|]. by intros [= <-].
  - unfold find_class.
    destruct (_ && _); [done|]. by intros [= <-].
  - destruct st as [|[args|] st1]; simpl; try (by intros [= <-]).
    destruct st1 as [|[callable|] st']; simpl; try (by intros [= <-]).
    destruct (reduce callable args) as [v|e'] eqn:Er; [done|].
    intros [= <-]. revert Er. unfold reduce, call_class.
    destruct args as [| | | | |a| | |]; try (by intros [= <-]).
    destruct callable as [| | | | | | |m n|]; try (by intros [= <-]).
    repeat case_bool_decide; destruct a as [|x [|y a]];
      try done; try (by intros [= <-]);
      destruct x; simpl; try done; by intros [= <-].
  - destruct st as [|[v|] st]; simpl; try done; by intros [= <-].
Qed.

Lemma loads_not_insufficient p e :
  loads p = Raise e → e ≠ RxnDatBasic.insufficient_arguments.
Proof.
  unfold loads, Unpickler_load. generalize (@nil slot).
  induction p as [|op p IH]; intros st; simpl; [by intros [= <-]|].
  destruct (step find_class op st) as [st'| |e'] eqn:Es; [apply IH|done|].
  intros [= <-]. by apply step_not_insufficient in Es.
Qed.
End no_insufficient_arguments.

Lemma decode_not_insufficient data e :
  (op ← getitem data 0 ≫= as_identifier;
   prods ← getitem data 1 ≫= frozenset_of;
   reacts ← getitem data 2 ≫= frozenset_of;
   OK (op, prods, reacts)) = Raise e →
  exn_msg e ≠ "Insufficient arguments provided".
Proof.
  assert (Hg : ∀ i e', getitem data i = Raise e' →
                       exn_msg e' ≠ "Insufficient arguments provided").
  { intros i e'. unfold getitem. destruct data; try (by intros [= <-]).
    - destruct (_ !! i); [done|]. by intros [= <-].
    - destruct (_ !! i); [done|]. by intros [= <-].
    - destruct (_ !! i); [done|]. by intros [= <-]. }
  assert (Hf : ∀ v e', frozenset_of v = Raise e' →
                       exn_msg e' ≠ "Insufficient arguments provided").
  { intros v e'. unfold frozenset_of.
    destruct (py_iter v) as [items|e''] eqn:Ei; simpl.
    - clear Ei. destruct (traverse as_identifier items) as [ids|e''] eqn:Et;
        simpl; [done|]. intros [= <-]. revert e'' Et.
      induction items as [|x l IH]; intros e''; simpl; [done|].
      destruct x; simpl; try (by intros [= <-]).
      destruct (traverse as_identifier l); simpl; [done|].
      intros [= <-]. by apply IH.
    - intros [= <-]. destruct v; simpl in Ei; try done; by injection Ei as <-. }
  destruct (getitem data 0) as [d0|e0] eqn:E0; simpl;
    [|intros [= <-]; by apply (Hg 0%nat)].
  destruct (as_identifier d0) as [o|e0] eqn:Ea; simpl.
  2:{ intros [= <-]. destruct d0; simpl in Ea; try done;
      by injection Ea as <-. }
  destruct (getitem data 1) as [d1|e1] eqn:E1; simpl;
    [|intros [= <-]; by apply (Hg 1%nat)].
  destruct (frozenset_of d1) as [p|e1] eqn:Ef1; simpl;
    [|intros [= <-]; by apply (Hf d1)].
  destruct (getitem data 2) as [d2|e2] eqn:E2; simpl;
    [|intros [= <-]; by apply (Hg 2%nat)].
  destruct (frozenset_of d2) as [q|e2] eqn:Ef2; simpl;
    [done|intros [= <-]; by apply (Hf d2)].
Qed.

(** C9, amended.  Construction raises the insufficient-arguments
    [TypeError] exactly when no serialized reaction is supplied and the
    (operator, reactants, products) triple is incomplete; when a serialized
    reaction is supplied it is the one decoded, whatever the other three
    arguments are. *)
Theorem RxnDatBasic_init_insufficient_arguments
    (operator : option Identifier) (reactants products : option (list Identifier))
    (reaction : option Pickle.payload) :
  (RxnDatBasic.__init__ operator reactants products reaction
   = Raise RxnDatBasic.insufficient_arguments
   ↔ ¬ blob_form reaction ∧ ¬ triple_form operator reactants products)
  ∧ (exn_type RxnDatBasic.insufficient_arguments = TypeError)
  ∧ (∀ b, reaction = Some b →
          RxnDatBasic.__init__ operator reactants products reaction
          = RxnDatBasic.__init__ None None None (Some b)).
Proof.
  split; [|split; [done|by intros b ->]].
  unfold blob_form, triple_form. split.
  - destruct reaction as [b|].
    + intros Hr. exfalso. unfold RxnDatBasic.__init__ in Hr.
      destruct (loads b) as [data|e] eqn:El; simpl in Hr.
      * match type of Hr with
        | context [mbind ?k (mbind ?f (getitem data 0 ≫= as_identifier))] =>
            destruct (mbind f (getitem data 0 ≫= as_identifier))
              as [[[??]?]|e] eqn:Ed
        end; simpl in Hr; [done|].
        injection Hr as ->. by apply decode_not_insufficient in Ed.
      * injection Hr as ->. by apply loads_not_insufficient in El.
    + intros Hr. split; [by intros [? [=]]|].
      intros ([o ->] & [q ->] & [p ->]). done.
  - intros [Hb Ht]. destruct reaction as [b|]; [by destruct Hb; eauto|].
    destruct operator as [o|], reactants as [q|], products as [p|];
      try done.
    destruct Ht; eauto.
Qed.

Lemma RxnDatBasic_init_insufficient_arguments_witness :
  RxnDatBasic.__init__ (Some "op") None (Some ["c"]) None
  = Raise RxnDatBasic.insufficient_arguments.
Proof.
  apply (proj1 (RxnDatBasic_init_insufficient_arguments
                  (Some "op") None (Some ["c"]) None)).
  split.
  - intros [? [=]].
  - intros (_ & [? [=]] & _).
Defined.

(** The claim C9 as worded fails: with both a serialized reaction and a
    complete triple, construction succeeds, from the serialized reaction. *)
Lemma RxnDatBasic_both_forms_accepted :
  ¬ (∀ operator reactants products reaction,
       ¬ exactly_one_form operator reactants products reaction →
       RxnDatBasic.__init__ operator reactants products reaction
       = Raise RxnDatBasic.insufficient_arguments).
Proof.
  intros Hc.
  specialize (Hc (Some "op2") (Some ["x"]) (Some ["y"])
                 (Some (RxnDatBasic_pickle "op" ["p"] ["r"]))).
  rewrite RxnDatBasic_init_blob in Hc by apply NoDup_singleton.
  discriminate Hc.
  intros [[_ Hn]|[Hn _]]; apply Hn; unfold blob_form, triple_form; eauto.
Qed.

(** ** Operator units *)

(** Serializing a value that holds an instance of a class outside the
    allow-list gives a payload that [loads] refuses. *)
Lemma loads_dumps_rejected v c :
  well_formed v = true → first_rejected safe_class v = Some c →
  loads (Pickle.dumps v) = Raise (forbidden c.1 c.2).
Proof.
  intros Hwf Hfr. unfold loads, Pickle.Unpickler_load, Pickle.dumps.
  rewrite (run_ext _ _ _ _ find_class_guarded).
  by apply run_save_rejected.
Qed.

Lemma loads_rxn_pair r k :
  loads (Pickle.dumps (PTuple [rxn_object r; k]))
  = Raise (forbidden rdChemReactions "ChemicalReaction").
Proof.
  unfold loads, Pickle.Unpickler_load, Pickle.dumps. cbn -[find_class].
  by rewrite find_class_Raise by (intros [? _]; discriminate).
Qed.

Lemma plain_loads_rxn_pair r (k : bool) :
  Pickle.plain_loads (Pickle.dumps (PTuple [rxn_object r; PBool k]))
  = OK (PTuple [rxn_object r; PBool k]).
Proof. by apply plain_loads_dumps. Qed.

Section OpDatBasic_facts.
Context `{ChemistryEngine}.
Import OpDatBasic.

(** What the constructor builds from a reaction object or a SMARTS
    string. *)
Lemma OpDatBasic_init_template operator engine kek u :
  __init__ operator engine kek = OK u →
  (∀ b, operator ≠ OpBytes b) →
  ∃ r, u = {| _blob := None; _engine := engine; _kekulize := PBool kek;
              _rdkitrxn := rxn_object r; _smarts := None;
              _templates := None; _uid := None |}
       ∧ (operator = OpRxn r
          ∨ ∃ s, operator = OpStr s ∧ ReactionFromSmarts s = OK r).
Proof.
  unfold __init__. intros Hu Hb. destruct operator as [r|s|b| ]; simpl in Hu.
  - injection Hu as <-. exists r. split; [done|by left].
  - destruct (ReactionFromSmarts s) as [r|] eqn:Er; simpl in Hu; [|done].
    injection Hu as <-. exists r. split; [done|right; eauto].
  - by destruct (Hb b).
  - done.
Qed.

Lemma OpDatBasic_init_bytes_rejected (r : ChemicalReaction) engine kek
    engine' kek' :
  __init__
    (OpBytes
       (blob {| _blob := None; _engine := engine; _kekulize := PBool kek;
                _rdkitrxn := rxn_object r; _smarts := None;
                _templates := None; _uid := None |}).1) engine' kek'
  = Raise (forbidden rdChemReactions "ChemicalReaction").
Proof.
  unfold __init__, blob, rdkitrxn.
  cbn [_blob _rdkitrxn _kekulize fst]. by rewrite loads_rxn_pair.
Qed.

Lemma OpDatBasic_uid_template (r : ChemicalReaction) engine (k : pyval) :
  fst <$> uid {| _blob := None; _engine := engine; _kekulize := k;
                 _rdkitrxn := rxn_object r; _smarts := None;
                 _templates := None; _uid := None |}
  = OK (ReactionToSmarts r).
Proof.
  unfold uid, with_rxn, as_rxn, rxn_object. simpl. by destruct r.
Qed.

(** The uid is read from the memo slot once it has been computed. *)
Lemma OpDatBasic_uid_memo (self self' : t) s :
  uid self = OK (s, self') → uid self' = OK (s, self').
Proof.
  unfold uid. destruct (_smarts self) as [s0|] eqn:Es.
  - intros [= <- <-]. by rewrite Es.
  - intros Hu. bind_OK Hu. by injection Hu as <- <-.
Qed.
End OpDatBasic_facts.

(** No payload at all lets the bytes branch of the constructor build a
    usable operator unit: what [loads] returns holds no reaction object, so
    the uid of the unit built from it cannot be computed. *)
Lemma OpDatBasic_init_bytes_unusable `{ChemistryEngine}
    (b : Pickle.payload) (engine : NetworkEngine) (kek : bool)
    (u : OpDatBasic.t) :
  OpDatBasic.__init__ (OpDatBasic.OpBytes b) engine kek = OK u →
  as_rxn (OpDatBasic.rdkitrxn u) = None
  ∧ OpDatBasic.uid u = Raise (Exn ArgumentError "not a ChemicalReaction" None).
Proof.
  unfold OpDatBasic.__init__. intros Hu.
  apply result_bind_OK in Hu as ([[rxn k] bl] & Hd & Hu). injection Hu as <-.
  apply result_bind_OK in Hd as ([rxn' k'] & Hl & Hd). injection Hd as <- <- _.
  apply result_bind_OK in Hl as (v & Hv & Hun).
  apply loads_data_only in Hv. unfold unpack2 in Hun.
  apply result_bind_OK in Hun as (items & Hi & Hun).
  pose proof (py_iter_data_only v items Hv Hi) as Hitems.
  destruct items as [|x [|y [|z items]]]; try done. injection Hun as <- <-.
  simpl in Hitems. apply andb_true_iff in Hitems as [Hx _].
  assert (Hn : as_rxn x = None) by (by destruct x).
  split; [done|]. unfold OpDatBasic.uid, with_rxn. simpl. by rewrite Hn.
Qed.

(** C6.  An operator unit built from a reaction object or from a SMARTS
    string cannot be rebuilt from its own blob: the blob refers to the class
    of the reaction object, which [loads] refuses, so the constructor raises
    the forbidden-type error instead of returning a unit with the same uid. *)
Theorem OpDatBasic_own_blob_rejected `{ChemistryEngine}
    (operator : OpDatBasic.operator_arg) (engine engine' : NetworkEngine)
    (kek kek' : bool) (u : OpDatBasic.t) :
  OpDatBasic.__init__ operator engine kek = OK u →
  (∀ b, operator ≠ OpDatBasic.OpBytes b) →
  OpDatBasic.__init__ (OpDatBasic.OpBytes (OpDatBasic.blob u).1) engine' kek'
  = Raise (forbidden rdChemReactions "ChemicalReaction").
Proof.
  intros Hu Hb.
  destruct (OpDatBasic_init_template _ _ _ _ Hu Hb) as (r & -> & _).
  apply OpDatBasic_init_bytes_rejected.
Qed.

Lemma OpDatBasic_own_blob_rejected_witness :
  @OpDatBasic.__init__ (string_engine (OK []))
    (OpDatBasic.OpBytes (OpDatBasic.blob (example_operator (OK []))).1)
    (string_network_engine (OK [])) false
  = Raise (forbidden rdChemReactions "ChemicalReaction").
Proof.
  apply (@OpDatBasic_own_blob_rejected (string_engine (OK []))
           (OpDatBasic.OpStr "[C:1]>>[C:1]O")
           (string_network_engine (OK [])) (string_network_engine (OK []))
           true false).
  - reflexivity.
  - intros b. discriminate.
Defined.

(** C8.  The uid of an operator unit is the SMARTS string of its template,
    whatever the kekulize flag; the unit keeps the flag it was built with and
    its blob carries it, but constructing a unit from that blob raises the
    forbidden-type error, so the flag is not restored. *)
Theorem OpDatBasic_uid_and_kekulize `{ChemistryEngine}
    (r : ChemicalReaction) (engine : NetworkEngine) :
  (∀ operator kek1 kek2,
     fst <$> (OpDatBasic.__init__ operator engine kek1 ≫= OpDatBasic.uid)
     = fst <$> (OpDatBasic.__init__ operator engine kek2 ≫= OpDatBasic.uid))
  ∧ (∀ kek : bool,
       ∃ u, OpDatBasic.__init__ (OpDatBasic.OpRxn r) engine kek = OK u
            ∧ fst <$> OpDatBasic.uid u = OK (ReactionToSmarts r)
            ∧ OpDatBasic._kekulize u = PBool kek
            ∧ Pickle.plain_loads (OpDatBasic.blob u).1
              = OK (PTuple [rxn_object r; PBool kek])
            ∧ ∀ engine' kek',
                OpDatBasic.__init__
                  (OpDatBasic.OpBytes (OpDatBasic.blob u).1) engine' kek'
                = Raise (forbidden rdChemReactions "ChemicalReaction")).
Proof.
  split.
  - intros operator kek1 kek2. unfold OpDatBasic.__init__.
    destruct operator as [r'|s|b| ]; try done.
    destruct (ReactionFromSmarts s); [|done].
    cbn -[OpDatBasic.uid rxn_object fmap].
    by rewrite !OpDatBasic_uid_template.
  - intros kek. eexists. split; [reflexivity|].
    split; [apply OpDatBasic_uid_template|]. split; [done|].
    split; [apply plain_loads_rxn_pair|].
    intros engine' kek'. apply OpDatBasic_init_bytes_rejected.
Qed.

Section OpDatBasic_call.
Context `{ChemistryEngine}.
Variable repr_str : string → string.
Variable repr_reactants : list MolDatBase → string.
Import OpDatBasic.

(** An engine exception can only come out of [transform] when the
    template of the unit is a reaction, and then the unit has a [repr]. *)
Lemma transform_Raise_repr (self : t) rdkitmols err :
  transform self rdkitmols = Raise err →
  exn_type err ≠ AttributeError →
  ∃ s, __repr__ repr_str self = OK s.
Proof.
  unfold transform, __repr__, uid, with_rxn, rxn_method. intros Ht Hty.
  destruct (as_rxn (_rdkitrxn self)) as [r|]; simpl in Ht.
  - destruct (_smarts self); simpl; eauto.
  - injection Ht as <-. done.
Qed.

Lemma call_unfold (self : t) reactants rdkitmols :
  normalize self reactants = OK rdkitmols →
  __call__ repr_str repr_reactants self reactants
  = match transform self rdkitmols with
    | OK products => OK products
    | Raise err =>
        if bool_decide (exn_type err = AtomValenceException)
        then Raise (operator_error repr_str repr_reactants self reactants err)
        else if bool_decide (exn_type err = KekulizeException)
        then Raise (operator_error repr_str repr_reactants self reactants err)
        else Raise err
    end.
Proof. unfold __call__. by intros ->. Qed.
End OpDatBasic_call.

(** C7, amended.  When the statements before the [try] have produced the
    structural objects of the reactants, [__call__] returns what the
    transformation returns; an [AtomValenceException] or a
    [KekulizeException] raised by the transformation is re-raised as a
    [ValueError] whose message names the operator and the reactants and
    whose cause is the engine's exception; an exception of any other class
    raised by the transformation reaches the caller unchanged. *)
Theorem OpDatBasic_call_error_translation `{ChemistryEngine}
    (repr_str : string → string) (repr_reactants : list MolDatBase → string)
    (self : OpDatBasic.t) (reactants : list MolDatBase)
    (rdkitmols : list Mol) :
  OpDatBasic.normalize self reactants = OK rdkitmols →
  match OpDatBasic.transform self rdkitmols with
  | OK products =>
      OpDatBasic.__call__ repr_str repr_reactants self reactants = OK products
  | Raise err =>
      if bool_decide (exn_type err = AtomValenceException
                      ∨ exn_type err = KekulizeException)
      then ∃ s, OpDatBasic.__repr__ repr_str self = OK s
                ∧ OpDatBasic.__call__ repr_str repr_reactants self reactants
                  = Raise (Exn ValueError
                             ("Error occurred when using operator " +:+ s
                              +:+ " on " +:+ repr_reactants reactants)
                             (Some err))
      else OpDatBasic.__call__ repr_str repr_reactants self reactants
           = Raise err
  end.
Proof.
  intros Hn. rewrite (call_unfold _ _ _ _ _ Hn).
  destruct (OpDatBasic.transform self rdkitmols) as [products|err] eqn:Et;
    [done|].
  case_bool_decide as Hty.
  - destruct (transform_Raise_repr repr_str _ _ _ Et) as [s Hs].
    { destruct Hty as [-> | ->]; discriminate. }
    exists s. split; [done|]. unfold OpDatBasic.operator_error. rewrite Hs.
    destruct Hty as [Hty|Hty]; rewrite Hty; by repeat case_bool_decide.
  - apply Decidable.not_or in Hty as [Ha Hk].
    by rewrite !bool_decide_eq_false_2.
Qed.

Lemma OpDatBasic_call_error_translation_witness :
  @OpDatBasic.__call__ (string_engine (Raise valence_error)) quote_repr
    count_repr (example_operator (Raise valence_error))
    (example_reactants (Raise valence_error))
  = Raise (Exn ValueError
             "Error occurred when using operator OpDatBasic('[C:1]>>[C:1]O'),kekulize on 1 reactants"
             (Some valence_error)).
Proof.
  pose proof (@OpDatBasic_call_error_translation
                (string_engine (Raise valence_error)) quote_repr count_repr
                (example_operator (Raise valence_error))
                (example_reactants (Raise valence_error))
                ["CC"] eq_refl) as W.
  destruct W as (s & Hs & W). rewrite W. clear W.
  injection Hs as <-. reflexivity.
Defined.

(** The claim C7 as worded fails: an exception of another class raised by
    the engine escapes [__call__] as it is. *)
Lemma OpDatBasic_call_other_exception_escapes :
  ¬ (∀ (E : ChemistryEngine) (repr_str : string → string)
       (repr_reactants : list MolDatBase → string)
       (self : OpDatBasic.t) (reactants : list MolDatBase) (e : exn),
       OpDatBasic.__call__ repr_str repr_reactants self reactants = Raise e →
       exn_type e = ValueError).
Proof.
  intros Hc.
  specialize (Hc (string_engine (Raise runtime_error)) quote_repr count_repr
                 (example_operator (Raise runtime_error))
                 (example_reactants (Raise runtime_error))
                 runtime_error eq_refl).
  discriminate Hc.
Qed.

(** ** The generation calculator *)

Lemma foldr_max_shift (c a : Z) (l : list Z) :
  foldr Z.max (Z.max c a) l = Z.max a (foldr Z.max c l).
Proof. induction l as [|x l IH]; simpl; lia. Qed.

Lemma foldr_max_succ (g : Z) (gs : list Z) :
  foldr Z.max (g + 1)%Z ((λ x, x + 1)%Z <$> gs) = (1 + foldr Z.max g gs)%Z.
Proof. induction gs as [|x l IH]; csimpl; lia. Qed.

Lemma mapM_option_cons {A B} (f : A → option B) (x : A) (l : list A) :
  mapM f (x :: l) = y ← f x; k ← mapM f l; Some (y :: k).
Proof. reflexivity. Qed.

Section generation_facts.
Import GenerationCalculator.
Context {K : Type} `{Countable K}.
Context {Item : Type} `{EqDecision Item}.
Context {Op : Type}.

Local Abbreviation packet := (@DataPacketE K _ _ Item).
Local Abbreviation reaction := (@ReactionExplicit K _ _ Item Op).

Implicit Types (self : @t K) (data r : packet) (rxn : reaction)
  (rs : list packet).

(** A reactant without a generation is one without metadata or without the
    key in its metadata. *)
Lemma generation_None self r :
  generation self r = None
  ↔ meta r = None ∨ ∃ m, meta r = Some m ∧ m !! gen_key self = None.
Proof.
  unfold generation, stored. destruct (meta r) as [m|]; simpl.
  - split; [eauto|]. intros [?|(? & [= <-] & ?)]; done.
  - split; auto.
Qed.

Lemma loop_step self r rs g cur_gen :
  generation self r = Some g →
  loop self (r :: rs) cur_gen
  = loop self rs (Some (Z.max (default (g + 1)%Z cur_gen) (g + 1))).
Proof.
  unfold generation, stored. simpl.
  destruct (meta r) as [m|]; simpl; [|done]. intros ->.
  by destruct cur_gen.
Qed.

Lemma loop_lacking self rs cur_gen :
  Exists (λ r, generation self r = None) rs →
  loop self rs cur_gen = Returned_None.
Proof.
  intros Hex. revert cur_gen.
  induction Hex as [r rs Hr|r rs _ IH]; intros cur_gen.
  - simpl. unfold generation, stored in Hr.
    destruct (meta r) as [m|]; simpl in *; [|done]. by rewrite Hr.
  - destruct (generation self r) as [g|] eqn:Eg.
    + by rewrite (loop_step _ _ _ _ _ Eg).
    + simpl. unfold generation, stored in Eg.
      destruct (meta r) as [m|]; simpl in *; [|done]. by rewrite Eg.
Qed.

Lemma loop_exhausted self rs gens c :
  mapM (generation self) rs = Some gens →
  loop self rs (Some c)
  = Exhausted (Some (foldr Z.max c ((λ g, g + 1)%Z <$> gens))).
Proof.
  revert gens c. induction rs as [|r rs IH]; intros gens c Hm.
  - by injection Hm as <-.
  - rewrite mapM_option_cons in Hm.
    destruct (generation self r) as [g|] eqn:Eg; simpl in Hm; [|done].
    destruct (mapM (generation self) rs) as [gs|] eqn:Egs; simpl in Hm;
      [|done].
    injection Hm as <-. rewrite (loop_step _ _ _ _ _ Eg). simpl.
    rewrite (IH gs _ eq_refl). csimpl. by rewrite foldr_max_shift.
Qed.

(** The loop computes the candidate of the specification. *)
Lemma loop_candidate self rxn c :
  candidate self rxn = Some c →
  loop self (reactants rxn) None = Exhausted (Some c).
Proof.
  unfold candidate. destruct (reactants rxn) as [|r rs]; [done|].
  rewrite mapM_option_cons.
  destruct (generation self r) as [g|] eqn:Eg; cbn -[loop]; [|done].
  destruct (mapM (generation self) rs) as [gs|] eqn:Egs; cbn -[loop];
    [|done].
  intros [= <-]. rewrite (loop_step _ _ _ _ _ Eg). simpl.
  rewrite (loop_exhausted _ _ _ _ Egs), Z.max_id. by rewrite foldr_max_succ.
Qed.

Lemma candidate_defined self rxn :
  reactants rxn ≠ [] →
  Forall (λ r, is_Some (generation self r)) (reactants rxn) →
  ∃ c, candidate self rxn = Some c.
Proof.
  unfold candidate. intros Hne Hall.
  assert (∃ gens, mapM (generation self) (reactants rxn) = Some gens
                  ∧ length gens = length (reactants rxn)) as (gens & Hm & Hl).
  { clear Hne. induction Hall as [|r rs Hr _ IH]; [by exists []|].
    destruct Hr as [g Hg]. destruct IH as (gs & IH & Hl).
    exists (g :: gs). rewrite mapM_option_cons, Hg, IH. simpl.
    by rewrite Hl. }
  rewrite Hm. destruct gens as [|g gs]; simpl; [|eauto].
  destruct (reactants rxn); done.
Qed.

(** The candidate is one more than the largest generation among the
    reactants. *)
Lemma candidate_is_max self rxn c :
  candidate self rxn = Some c →
  (∃ r, r ∈ reactants rxn ∧ generation self r = Some (c - 1)%Z)
  ∧ (∀ r, r ∈ reactants rxn →
          ∃ g, generation self r = Some g ∧ (g + 1 ≤ c)%Z).
Proof.
  unfold candidate. generalize (reactants rxn) as rs. intros rs Hc.
  destruct (mapM (generation self) rs) as [gens|] eqn:Em; simpl in Hc;
    [|done].
  destruct gens as [|g0 gs]; simpl in Hc; [done|]. injection Hc as <-.
  revert g0 gs Em. induction rs as [|r rs IH]; intros g0 gs Em; [done|].
  rewrite mapM_option_cons in Em.
  destruct (generation self r) as [g|] eqn:Eg; simpl in Em; [|done].
  destruct (mapM (generation self) rs) as [gs'|] eqn:Egs; simpl in Em;
    [|done].
  injection Em as <- <-. destruct gs' as [|g1 gs].
  - destruct rs as [|r' rs]; [|rewrite mapM_option_cons in Egs;
      destruct (generation self r'); simpl in Egs;
      [destruct (mapM (generation self) rs)|]; done].
    simpl. split.
    + exists r. split; [by left|]. rewrite Eg. f_equal; lia.
    + intros r' ->%list_elem_of_singleton. exists g. split; [done|lia].
  - destruct (IH g1 gs eq_refl) as [(rm & Hin & Hrm) Hle].
    change (foldr Z.max g (g1 :: gs)) with (Z.max g1 (foldr Z.max g gs)).
    assert (Hsw : Z.max g1 (foldr Z.max g gs)
                  = Z.max g (foldr Z.max g1 gs)).
    { clear. revert g g1. induction gs as [|x l IHl]; intros g g1; simpl;
        [lia|]. specialize (IHl g g1). lia. }
    rewrite Hsw. split.
    + destruct (Z.max_spec g (foldr Z.max g1 gs)) as [[_ ->]|[_ ->]].
      * exists rm. split; [by right|]. rewrite Hrm. f_equal; lia.
      * exists r. split; [by left|]. rewrite Eg. f_equal; lia.
    + intros r' [->|Hin']%elem_of_cons.
      * exists g. split; [done|lia].
      * destruct (Hle r' Hin') as (g' & Hg' & Hle'). exists g'.
        split; [done|lia].
Qed.

Lemma call_candidate self data rxn prev_value c :
  data ∉ reactants rxn → candidate self rxn = Some c →
  __call__ self data rxn prev_value
  = if accepts self data prev_value c then Some c else None.
Proof.
  intros Hd Hc. unfold __call__, accepts, stored.
  rewrite bool_decide_eq_false_2 by done.
  rewrite (loop_candidate _ _ _ Hc).
  destruct prev_value as [p|]; simpl.
  - destruct (decide (p < c)%Z).
    + rewrite bool_decide_eq_true_2 by done.
      by rewrite (bool_decide_eq_false_2 (c ≤ p)%Z) by lia.
    + rewrite bool_decide_eq_false_2 by done.
      rewrite (bool_decide_eq_true_2 (c ≤ p)%Z) by lia. simpl.
      destruct (meta data) as [m|]; simpl; [|done].
      destruct (m !! gen_key self) as [s|]; [|done].
      destruct (decide (s ≤ c)%Z).
      * rewrite bool_decide_eq_true_2 by done.
        by rewrite (bool_decide_eq_false_2 (c < s)%Z) by lia.
      * rewrite bool_decide_eq_false_2 by done.
        by rewrite (bool_decide_eq_true_2 (c < s)%Z) by lia.
  - destruct (meta data) as [m|]; simpl; [|done].
    destruct (m !! gen_key self) as [s|]; [|done].
    destruct (decide (s ≤ c)%Z).
    + rewrite bool_decide_eq_true_2 by done.
      by rewrite (bool_decide_eq_false_2 (c < s)%Z) by lia.
    + rewrite bool_decide_eq_false_2 by done.
      by rewrite (bool_decide_eq_true_2 (c < s)%Z) by lia.
Qed.

Lemma accepts_spec self data prev_value c :
  accepts self data prev_value c = true
  ↔ (∀ p, prev_value = Some p → (c ≤ p)%Z)
    ∧ (∀ s, stored self data = Some s → (c < s)%Z).
Proof.
  unfold accepts. rewrite andb_true_iff. split.
  - intros [Hp Hs]. split.
    + intros p ->. by apply bool_decide_eq_true in Hp.
    + intros s Hs'. rewrite Hs' in Hs. by apply bool_decide_eq_true in Hs.
  - intros [Hp Hs]. split.
    + destruct prev_value as [p|]; [|done].
      apply bool_decide_eq_true. by apply Hp.
    + destruct (stored self data) as [s|]; [|done].
      apply bool_decide_eq_true. by apply Hs.
Qed.
End generation_facts.

(** C2, amended.  When the evaluated molecule is not among the reactants,
    the reaction has at least one reactant and every reactant carries the
    generation key, the candidate is one more than the largest generation of
    the reactants, and [__call__] returns the candidate exactly when
    [prev_value] is absent or not smaller than the candidate and the
    snapshot of the molecule stores no value for the key or a value larger
    than the candidate; in every other case, in particular when the stored
    value is smaller than or equal to the candidate, it returns no update. *)
Theorem GenerationCalculator_call_candidate
    {K : Type} `{Countable K} {Item : Type} `{EqDecision Item} {Op : Type}
    (self : @GenerationCalculator.t K)
    (data : @GenerationCalculator.DataPacketE K _ _ Item)
    (rxn : @GenerationCalculator.ReactionExplicit K _ _ Item Op)
    (prev_value : option Z) :
  data ∉ GenerationCalculator.reactants rxn →
  GenerationCalculator.reactants rxn ≠ [] →
  Forall (λ r, is_Some (GenerationCalculator.generation self r))
    (GenerationCalculator.reactants rxn) →
  ∃ c,
    candidate self rxn = Some c
    ∧ (∃ r, r ∈ GenerationCalculator.reactants rxn
            ∧ GenerationCalculator.generation self r = Some (c - 1)%Z)
    ∧ (∀ r, r ∈ GenerationCalculator.reactants rxn →
            ∃ g, GenerationCalculator.generation self r = Some g
                 ∧ (g + 1 ≤ c)%Z)
    ∧ (GenerationCalculator.__call__ self data rxn prev_value = Some c
       ↔ (∀ p, prev_value = Some p → (c ≤ p)%Z)
         ∧ (∀ s, GenerationCalculator.stored self data = Some s → (c < s)%Z))
    ∧ (GenerationCalculator.__call__ self data rxn prev_value = None
       ↔ (∃ p, prev_value = Some p ∧ (p < c)%Z)
         ∨ (∃ s, GenerationCalculator.stored self data = Some s
                 ∧ (s ≤ c)%Z)).
Proof.
  intros Hd Hne Hall.
  destruct (candidate_defined self rxn Hne Hall) as [c Hc]. exists c.
  destruct (candidate_is_max self rxn c Hc) as [Hmax Hle].
  do 3 (split; [done|]).
  rewrite (call_candidate self data rxn prev_value c Hd Hc).
  pose proof (accepts_spec self data prev_value c) as Ha.
  destruct (accepts self data prev_value c).
  - split; [split; [intros _; by apply Ha|done]|].
    split; [done|]. destruct (proj1 Ha eq_refl) as [Hp Hs].
    intros [(p & Ep & Hlt)|(s & Es & Hlt)].
    + apply Hp in Ep. lia.
    + apply Hs in Es. lia.
  - split.
    + split; [done|]. intros Hacc. by apply Ha in Hacc.
    + split; [|done]. intros _.
      destruct prev_value as [p|] eqn:Ep.
      * destruct (decide (p < c)%Z); [left; eauto|].
        destruct (GenerationCalculator.stored self data) as [s|] eqn:Es.
        -- destruct (decide (s ≤ c)%Z); [right; eauto|].
           exfalso. assert (false = true); [|done].
           apply Ha. split; [intros ? [= <-]; lia|intros ? [= <-]; lia].
        -- exfalso. assert (false = true); [|done].
           apply Ha. split; [intros ? [= <-]; lia|done].
      * destruct (GenerationCalculator.stored self data) as [s|] eqn:Es.
        -- destruct (decide (s ≤ c)%Z); [right; eauto|].
           exfalso. assert (false = true); [|done].
           apply Ha. split; [done|intros ? [= <-]; lia].
        -- exfalso. assert (false = true); [|done]. by apply Ha.
Qed.

Lemma mol_packet_not_reactant name gen (rs : list (string * option Z)) :
  name ∉ rs.*1 →
  mol_packet name gen ∉ (λ r, mol_packet r.1 r.2) <$> rs.
Proof.
  intros Hn (r & Hr & Hin)%list_elem_of_fmap. apply Hn.
  apply list_elem_of_fmap. exists r. split; [|done].
  by apply (f_equal GenerationCalculator.item) in Hr.
Qed.

Lemma GenerationCalculator_call_candidate_witness :
  ∃ c,
    candidate gen_calc
      (reaction_of [mol_packet "A" (Some 0%Z); mol_packet "B" (Some 1%Z)]
                   [mol_packet "C" None]) = Some c
    ∧ GenerationCalculator.__call__ gen_calc (mol_packet "C" None)
        (reaction_of [mol_packet "A" (Some 0%Z); mol_packet "B" (Some 1%Z)]
                     [mol_packet "C" None]) None = Some c.
Proof.
  destruct (GenerationCalculator_call_candidate gen_calc
              (mol_packet "C" None)
              (reaction_of [mol_packet "A" (Some 0%Z);
                            mol_packet "B" (Some 1%Z)]
                           [mol_packet "C" None]) None)
    as (c & Hc & _ & _ & Hacc & _).
  - apply (mol_packet_not_reactant "C" None
             [("A", Some 0%Z); ("B", Some 1%Z)]).
    intros Hin. repeat (apply elem_of_cons in Hin as [Hin|Hin]; [done|]).
    by apply elem_of_nil in Hin.
  - discriminate.
  - repeat constructor; by eexists.
  - exists c. split; [done|]. apply Hacc. split; [done|].
    intros s Hs. discriminate Hs.
Defined.

(** The claim C2 as worded fails: here every reactant carries the key, the
    candidate is 1 and the stored value 5 exceeds it, yet [__call__] returns
    no update, because [prev_value] is 0. *)
Lemma GenerationCalculator_acceptance_as_written_fails :
  ¬ @acceptance_as_written string _ _ string _ string.
Proof.
  intros Hc.
  destruct (Hc gen_calc (mol_packet "C" (Some 5%Z))
              (reaction_of [mol_packet "A" (Some 0%Z)]
                           [mol_packet "C" (Some 5%Z)])
              (Some 0%Z) 1%Z) as [[_ Hback] _].
  - apply (mol_packet_not_reactant "C" (Some 5%Z) [("A", Some 0%Z)]).
    intros Hin. repeat (apply elem_of_cons in Hin as [Hin|Hin]; [done|]).
    by apply elem_of_nil in Hin.
  - repeat constructor. by eexists.
  - reflexivity.
  - assert (Hs : GenerationCalculator.stored gen_calc
                   (mol_packet "C" (Some 5%Z)) = Some 5%Z) by reflexivity.
    assert (Hr : GenerationCalculator.__call__ gen_calc
                   (mol_packet "C" (Some 5%Z))
                   (reaction_of [mol_packet "A" (Some 0%Z)]
                                [mol_packet "C" (Some 5%Z)])
                   (Some 0%Z) = Some 1%Z).
    { apply Hback. right. exists 5%Z. split; [exact Hs|lia]. }
    vm_compute in Hr. discriminate Hr.
Qed.

(** With [prev_value] equal to the candidate and nothing stored, the
    candidate is returned again. *)
Lemma GenerationCalculator_prev_value_equal :
  GenerationCalculator.__call__ gen_calc (mol_packet "B" None)
    (reaction_of [mol_packet "A" (Some 0%Z)] [mol_packet "B" None])
    (Some 1%Z)
  = Some 1%Z.
Proof. vm_compute. reflexivity. Qed.

(** C3, amended.  If the evaluated packet, that is the molecule together
    with its metadata snapshot, is equal to one of the reactant packets of
    the reaction, or if some reactant has no metadata or no generation key
    in its metadata, [__call__] returns no update. *)
Theorem GenerationCalculator_call_no_update
    {K : Type} `{Countable K} {Item : Type} `{EqDecision Item} {Op : Type}
    (self : @GenerationCalculator.t K)
    (data : @GenerationCalculator.DataPacketE K _ _ Item)
    (rxn : @GenerationCalculator.ReactionExplicit K _ _ Item Op)
    (prev_value : option Z) :
  data ∈ GenerationCalculator.reactants rxn
  ∨ Exists (λ r, GenerationCalculator.meta r = None
                 ∨ ∃ m, GenerationCalculator.meta r = Some m
                        ∧ m !! GenerationCalculator.gen_key self = None)
      (GenerationCalculator.reactants rxn) →
  GenerationCalculator.__call__ self data rxn prev_value = None.
Proof.
  intros Hcase. unfold GenerationCalculator.__call__.
  case_bool_decide as Hin; [done|].
  destruct Hcase as [Hd|Hex]; [done|].
  rewrite loop_lacking; [done|].
  eapply Exists_impl; [exact Hex|]. intros r Hr. by apply generation_None.
Qed.

Lemma GenerationCalculator_call_no_update_witness :
  GenerationCalculator.__call__ gen_calc (mol_packet "C" None)
    (reaction_of [mol_packet "A" (Some 0%Z); mol_packet "B" None]
                 [mol_packet "C" None]) None
  = None.
Proof.
  apply (GenerationCalculator_call_no_update gen_calc (mol_packet "C" None)
           (reaction_of [mol_packet "A" (Some 0%Z); mol_packet "B" None]
                        [mol_packet "C" None]) None).
  right. apply Exists_cons_tl, Exists_cons_hd. by left.
Defined.

(** The claim C3 as worded fails: the test [data in rxn.reactants] compares
    packets, so a molecule that is a reactant of the reaction, but whose
    packet carries another snapshot than the reactant's, receives a
    proposal.  Here the molecule A, stored at generation 5, is the only
    reactant, listed at generation 0, and the call proposes 1. *)
Lemma GenerationCalculator_reactant_molecule_updated :
  ¬ (∀ (self : @GenerationCalculator.t string)
       (data : @GenerationCalculator.DataPacketE string _ _ string)
       (rxn : @GenerationCalculator.ReactionExplicit string _ _ string string)
       (prev_value : option Z),
       (∃ r, r ∈ GenerationCalculator.reactants rxn
             ∧ GenerationCalculator.item r = GenerationCalculator.item data) →
       GenerationCalculator.__call__ self data rxn prev_value = None).
Proof.
  intros Hc.
  specialize (Hc gen_calc (mol_packet "A" (Some 5%Z))
                 (reaction_of [mol_packet "A" (Some 0%Z)] []) None).
  assert (Hr : GenerationCalculator.__call__ gen_calc
                 (mol_packet "A" (Some 5%Z))
                 (reaction_of [mol_packet "A" (Some 0%Z)] []) None
               = Some 1%Z) by (vm_compute; reflexivity).
  rewrite Hc in Hr; [discriminate Hr|].
  exists (mol_packet "A" (Some 0%Z)). split; [by left|reflexivity].
Qed.

(** C10.  On a reaction without reactants [__call__] returns no update,
    whatever the snapshot and the previous value, although every reactant
    of such a reaction carries the generation key. *)
Theorem GenerationCalculator_call_no_reactants
    {K : Type} `{Countable K} {Item : Type} `{EqDecision Item} {Op : Type}
    (self : @GenerationCalculator.t K)
    (data : @GenerationCalculator.DataPacketE K _ _ Item)
    (op : Op) (products : list (@GenerationCalculator.DataPacketE K _ _ Item))
    (prev_value : option Z) :
  GenerationCalculator.__call__ self data
    {| GenerationCalculator.operator := op;
       GenerationCalculator.reactants := [];
       GenerationCalculator.products := products |} prev_value
  = None
  ∧ Forall (λ r, is_Some (GenerationCalculator.generation self r))
      (GenerationCalculator.reactants
         {| GenerationCalculator.operator := op;
            GenerationCalculator.reactants := [];
            GenerationCalculator.products := products |}).
Proof.
  split; [|by constructor]. unfold GenerationCalculator.__call__.
  cbn [GenerationCalculator.reactants GenerationCalculator.loop].
  by rewrite bool_decide_eq_false_2 by apply not_elem_of_nil.
Qed.

(** * Further properties of the code *)

(** ** The trust boundary *)

(** X1.  On every payload over the opcodes of the machine (constants, marks,
    [TUPLE], [FROZENSET], global references, [REDUCE], [STOP]), [loads]
    either raises or returns a value made of constants, tuples, frozensets
    and the two allowed class objects: no global reference and no [REDUCE]
    of such a payload makes it return an instance of another class. *)
Theorem loads_never_instantiates (payload : Pickle.payload) :
  match loads payload with
  | OK v => data_only v = true
  | Raise _ => True
  end.
Proof.
  destruct (loads payload) as [v|e] eqn:El; [|done].
  exact (run_data_only payload [] v eq_refl El).
Qed.

(** X2.  [loads] rebuilds every value made of data only from the payload
    that [pickle.dumps] gives for it. *)
Theorem loads_inverts_dumps (v : pyval) :
  data_only v = true → loads (Pickle.dumps v) = OK v.
Proof.
  intros [Hwf Hfr]%data_only_loadable. unfold loads, Pickle.Unpickler_load.
  rewrite (run_ext _ _ _ _ find_class_guarded). unfold Pickle.dumps.
  by rewrite (run_app _ _ _ _ _ (run_prefix_save _ forbidden v [] Hwf Hfr)).
Qed.

Lemma loads_inverts_dumps_witness :
  loads (Pickle.dumps
           (PTuple [PStr "op"; PFrozenset [PStr "a"; PStr "b"]; PInt 3;
                    PClass "builtins" "tuple"]))
  = OK (PTuple [PStr "op"; PFrozenset [PStr "a"; PStr "b"]; PInt 3;
                PClass "builtins" "tuple"]).
Proof.
  apply (loads_inverts_dumps
           (PTuple [PStr "op"; PFrozenset [PStr "a"; PStr "b"]; PInt 3;
                    PClass "builtins" "tuple"])).
  vm_compute. reflexivity.
Defined.

(** X3.  Take a value made of constants, tuples, frozensets, class objects
    and instances that are pickled by reference to their class.  When it
    holds a class object, or such an instance, whose class [find_class]
    does not admit, [loads] raises the forbidden-type error for the first
    such class on the payload that [pickle.dumps] gives for the value,
    wherever in the value the class occurs. *)
Theorem loads_rejects_foreign_classes (v : pyval) (module name : string) :
  well_formed v = true →
  first_rejected safe_class v = Some (module, name) →
  loads (Pickle.dumps v) = Raise (forbidden module name)
  ∧ ¬ (module = "builtins" ∧ name ∈ _safe_builtins_classes).
Proof.
  intros Hwf Hfr. split.
  - unfold loads, Pickle.Unpickler_load, Pickle.dumps.
    rewrite (run_ext _ _ _ _ find_class_guarded).
    exact (run_save_rejected safe_class forbidden v (module, name)
             [Pickle.STOP] [] Hwf Hfr).
  - intros Hs%safe_class_spec. revert Hfr Hs. clear Hwf.
    induction v as [| | | | |items IH|items IH|m n|m n args IH]
      using pyval_nested_ind; try done.
    + change (first_rejected safe_class (PTuple items))
        with (first_rejected_all safe_class items).
      induction IH as [|x l Hx _ IHl]; [done|]. simpl.
      destruct (first_rejected safe_class x) eqn:Ex; [|done].
      intros [= ->]. by apply Hx.
    + change (first_rejected safe_class (PFrozenset items))
        with (first_rejected_all safe_class items).
      induction IH as [|x l Hx _ IHl]; [done|]. simpl.
      destruct (first_rejected safe_class x) eqn:Ex; [|done].
      intros [= ->]. by apply Hx.
    + simpl. destruct (safe_class m n) eqn:Em; [done|].
      intros [= -> ->]. congruence.
    + change (first_rejected safe_class (PObject m n args))
        with (if safe_class m n then first_rejected_all safe_class args
              else Some (m, n)).
      destruct (safe_class m n) eqn:Em; [|intros [= -> ->]; congruence].
      induction IH as [|x l Hx _ IHl]; [done|]. simpl.
      destruct (first_rejected safe_class x) eqn:Ex; [|done].
      intros [= ->]. by apply Hx.
Qed.

Lemma loads_rejects_foreign_classes_witness :
  loads (Pickle.dumps
           (PTuple [PStr "op";
                    PFrozenset [PObject "os" "system" [PStr "ls"]]]))
  = Raise (forbidden "os" "system")
  ∧ ¬ ("os" = "builtins" ∧ "system" ∈ _safe_builtins_classes).
Proof.
  apply (loads_rejects_foreign_classes
           (PTuple [PStr "op";
                    PFrozenset [PObject "os" "system" [PStr "ls"]]])
           "os" "system").
  - vm_compute. reflexivity.
  - vm_compute. reflexivity.
Defined.

(** ** Molecule units *)

(** X4.  A full-cache molecule unit keeps its memo slots coherent with its
    structural object: the constructor establishes this, reading [blob] or
    [inchikey] preserves it, and under it the two properties return the
    engine's encoding and key of the structural object, whichever was read
    first and however often. *)
Theorem MolDatBasicV2_memo_coherent `{ChemistryEngine}
    (u : MolDatBasicV2.t) :
  MolDatBasicV2_consistent u →
  (MolDatBasicV2.blob u).1 = Mol_ToBinary (MolDatBasicV2.rdkitmol u)
  ∧ (MolDatBasicV2.inchikey u).1 = MolToInchiKey (MolDatBasicV2.rdkitmol u)
  ∧ MolDatBasicV2.uid u = MolToSmiles (MolDatBasicV2.rdkitmol u)
  ∧ MolDatBasicV2_consistent (MolDatBasicV2.blob u).2
  ∧ MolDatBasicV2_consistent (MolDatBasicV2.inchikey u).2
  ∧ MolDatBasicV2.rdkitmol (MolDatBasicV2.blob u).2
    = MolDatBasicV2.rdkitmol u
  ∧ MolDatBasicV2.rdkitmol (MolDatBasicV2.inchikey u).2
    = MolDatBasicV2.rdkitmol u.
Proof.
  intros Hc. unfold MolDatBasicV2.blob, MolDatBasicV2.inchikey,
    MolDatBasicV2.uid, MolDatBasicV2.rdkitmol.
  destruct u as [b k m s]. destruct Hc as (Hb & Hk & Hs). simpl in *.
  destruct b as [b|], k as [k|]; simpl;
    rewrite ?(Hb _ eq_refl), ?(Hk _ eq_refl);
    repeat split; simpl; try done;
    try (by intros ? [= <-]); auto.
Qed.

Lemma MolDatBasicV2_init_consistent `{ChemistryEngine}
    (molecule : molecule_arg Mol) (sanitize neutralize : bool)
    (u : MolDatBasicV2.t) :
  MolDatBasicV2.__init__ molecule sanitize neutralize = OK u →
  MolDatBasicV2_consistent u.
Proof.
  unfold MolDatBasicV2.__init__. intros Hu. bind_OK Hu.
  injection Hu as <-. by repeat split.
Qed.

Lemma MolDatBasicV2_memo_coherent_witness :
  (@MolDatBasicV2.blob (string_engine (OK []))
     {| MolDatBasicV2._blob := None; MolDatBasicV2._inchikey := None;
        MolDatBasicV2._rdkitmol := "CC" : @Mol (string_engine (OK []));
        MolDatBasicV2._smiles := "CC" |}).1
  = String.list_byte_of_string "CC".
Proof.
  refine (proj1 (@MolDatBasicV2_memo_coherent (string_engine (OK []))
                   {| MolDatBasicV2._blob := None;
                      MolDatBasicV2._inchikey := None;
                      MolDatBasicV2._rdkitmol :=
                        "CC" : @Mol (string_engine (OK []));
                      MolDatBasicV2._smiles := "CC" |} _)).
  repeat split; simpl; discriminate.
Defined.

(** X7.  The [repr] of a minimal-cache unit and the [repr] of a full-cache
    unit are never the same string, not even for the same molecule: the
    first quotes the canonical string with apostrophes, the second with
    quotation marks. *)
Theorem MolDatBasic_repr_differ `{ChemistryEngine}
    (u1 : MolDatBasicV1.t) (u2 : MolDatBasicV2.t) :
  MolDatBasicV1.__repr__ u1 ≠ MolDatBasicV2.__repr__ u2.
Proof.
  unfold MolDatBasicV1.__repr__, MolDatBasicV2.__repr__,
    MolDatBasicV2.dquote.
  intros Heq. inversion Heq.
Qed.

(** ** Reaction units *)

(** X8.  Every reaction unit built from an (operator, reactants, products)
    triple of identifiers is rebuilt from its own blob with the same
    operator, products, reactants and uid, and the rebuilt unit is rebuilt
    from its blob in the same way. *)
Theorem RxnDatBasic_rebuilt_from_blob
    (op : Identifier) (rs ps : list Identifier) (r : RxnDatBasic.t) :
  RxnDatBasic.__init__ (Some op) (Some rs) (Some ps) None = OK r →
  ∃ r' r'',
    RxnDatBasic.__init__ None None None (Some (RxnDatBasic.blob r).1) = OK r'
    ∧ (RxnDatBasic.uid r').1 = (RxnDatBasic.uid r).1
    ∧ RxnDatBasic.operator r' = RxnDatBasic.operator r
    ∧ RxnDatBasic.products r' = RxnDatBasic.products r
    ∧ RxnDatBasic.reactants r' = RxnDatBasic.reactants r
    ∧ RxnDatBasic.__init__ None None None (Some (RxnDatBasic.blob r').1)
      = OK r''
    ∧ (RxnDatBasic.uid r'').1 = (RxnDatBasic.uid r).1.
Proof.
  intros Hr.
  destruct (RxnDatBasic_blob_round_trip r) as (r' & Hr' & Hu & Ho & Hp & Hq).
  { by eapply RxnDatBasic_init_consistent. }
  destruct (RxnDatBasic_blob_round_trip r') as (r'' & Hr'' & Hu' & _).
  { by eapply RxnDatBasic_init_consistent. }
  exists r', r''. repeat split; try done. by rewrite Hu'.
Qed.

Lemma RxnDatBasic_rebuilt_from_blob_witness :
  ∃ r', RxnDatBasic.__init__ None None None
          (Some (RxnDatBasic.blob
                   {| RxnDatBasic._blob := None;
                      RxnDatBasic._operator := "op";
                      RxnDatBasic._products := frozenset ["c"; "c"];
                      RxnDatBasic._reactants := frozenset ["b"; "a"];
                      RxnDatBasic._uid := None |}).1)
        = OK r'
        ∧ (RxnDatBasic.uid r').1 = ("op", ["c"], ["a"; "b"]).
Proof.
  destruct (RxnDatBasic_rebuilt_from_blob "op" ["b"; "a"] ["c"; "c"] _
              eq_refl) as (r' & _ & Hr' & Hu & _).
  exists r'. split; [exact Hr'|]. rewrite Hu. vm_compute. reflexivity.
Defined.

Lemma sorted_eq_same_elements l1 l2 :
  sorted l1 = sorted l2 → ∀ x, x ∈ l1 ↔ x ∈ l2.
Proof.
  intros Heq x.
  rewrite <- (proj2 (sorted_spec l1)), <- (proj2 (sorted_spec l2)).
  by rewrite Heq.
Qed.

(** X9.  The uid identifies a reaction by its operator and by the sets of
    its products and reactants: two units built from triples have equal
    uids exactly when their operators are equal and their product and
    reactant collections have the same elements, whatever the order and the
    repetitions in the collections. *)
Theorem RxnDatBasic_uid_identifies
    (op1 op2 : Identifier) (rs1 ps1 rs2 ps2 : list Identifier) :
  ∃ r1 r2,
    RxnDatBasic.__init__ (Some op1) (Some rs1) (Some ps1) None = OK r1
    ∧ RxnDatBasic.__init__ (Some op2) (Some rs2) (Some ps2) None = OK r2
    ∧ ((RxnDatBasic.uid r1).1 = (RxnDatBasic.uid r2).1
       ↔ op1 = op2 ∧ (∀ x, x ∈ ps1 ↔ x ∈ ps2) ∧ (∀ x, x ∈ rs1 ↔ x ∈ rs2)).
Proof.
  do 2 eexists. rewrite !RxnDatBasic_init_triple. do 2 (split; [done|]).
  simpl. split.
  - intros [= -> Hp Hr]. split; [done|].
    split; intros x.
    + pose proof (sorted_eq_same_elements _ _ Hp x) as Hx.
      unfold frozenset in Hx. by rewrite !elem_of_remove_dups in Hx.
    + pose proof (sorted_eq_same_elements _ _ Hr x) as Hx.
      unfold frozenset in Hx. by rewrite !elem_of_remove_dups in Hx.
  - intros (-> & Hp & Hr).
    by rewrite (sorted_frozenset_same_elements _ _ Hp),
      (sorted_frozenset_same_elements _ _ Hr).
Qed.

(** X10.  The product and reactant components of the uid of a unit built
    from a triple are in ascending order, hold no identifier twice, and hold
    exactly the identifiers supplied. *)
Theorem RxnDatBasic_uid_canonical
    (op : Identifier) (rs ps : list Identifier) :
  ∃ r, RxnDatBasic.__init__ (Some op) (Some rs) (Some ps) None = OK r
       ∧ (RxnDatBasic.uid r).1.1.1 = op
       ∧ Sorted String.le (RxnDatBasic.uid r).1.1.2
       ∧ NoDup (RxnDatBasic.uid r).1.1.2
       ∧ (∀ x, x ∈ (RxnDatBasic.uid r).1.1.2 ↔ x ∈ ps)
       ∧ Sorted String.le (RxnDatBasic.uid r).1.2
       ∧ NoDup (RxnDatBasic.uid r).1.2
       ∧ (∀ x, x ∈ (RxnDatBasic.uid r).1.2 ↔ x ∈ rs).
Proof.
  eexists. rewrite RxnDatBasic_init_triple. split; [done|]. simpl.
  split; [done|].
  assert (Hcan : ∀ l, Sorted String.le (sorted (frozenset l))
                      ∧ NoDup (sorted (frozenset l))
                      ∧ ∀ x, x ∈ sorted (frozenset l) ↔ x ∈ l).
  { intros l. destruct (sorted_spec (frozenset l)) as [Hs Hp].
    split; [done|]. split.
    - rewrite Hp. apply frozenset_NoDup.
    - intros x. rewrite Hp. apply elem_of_remove_dups. }
  destruct (Hcan ps) as (? & ? & ?), (Hcan rs) as (? & ? & ?). done.
Qed.

(** *** The order of identifiers and of uids *)

Lemma string_ltb_spec (s1 s2 : string) :
  String.ltb s1 s2 = true ↔ String.le s1 s2 ∧ s1 ≠ s2.
Proof.
  unfold String.le, String.leb, String.ltb.
  destruct (String.compare s1 s2) eqn:Ec; simpl.
  - apply String.compare_eq_iff in Ec. split; [done|]. by intros [_ ?].
  - split; [|done]. intros _. split; [done|]. intros ->.
    pose proof (String.compare_antisym s2 s2) as Ha. rewrite Ec in Ha.
    discriminate Ha.
  - split; [done|]. by intros [? _].
Qed.

Lemma string_ltb_irrefl (s : string) : String.ltb s s = false.
Proof.
  destruct (String.ltb s s) eqn:E; [|done].
  by apply string_ltb_spec in E as [_ ?].
Qed.

Lemma string_ltb_trans (s1 s2 s3 : string) :
  String.ltb s1 s2 = true → String.ltb s2 s3 = true →
  String.ltb s1 s3 = true.
Proof.
  rewrite !string_ltb_spec. intros [H12 N12] [H23 N23]. split.
  - by trans s2.
  - intros ->. apply N12. by apply (anti_symm String.le).
Qed.

Lemma string_ltb_total (s1 s2 : string) :
  s1 ≠ s2 → String.ltb s1 s2 = true ∨ String.ltb s2 s1 = true.
Proof.
  intros Hne. rewrite !string_ltb_spec.
  destruct (total String.le s1 s2); [left|right]; split; congruence.
Qed.

Lemma tuple_lt_irrefl l : RxnDatBasic.tuple_lt l l = false.
Proof.
  induction l as [|x l IH]; simpl; [done|].
  by rewrite bool_decide_eq_true_2.
Qed.

Lemma tuple_lt_trans l1 l2 l3 :
  RxnDatBasic.tuple_lt l1 l2 = true → RxnDatBasic.tuple_lt l2 l3 = true →
  RxnDatBasic.tuple_lt l1 l3 = true.
Proof.
  revert l2 l3. induction l1 as [|x l1 IH]; intros [|y l2] [|z l3];
    simpl; try done.
  intros H1 H2.
  repeat case_bool_decide; subst; try done; try congruence;
    try (by eapply IH); try (by eapply string_ltb_trans).
  pose proof (string_ltb_trans _ _ _ H1 H2) as Ht.
  by rewrite string_ltb_irrefl in Ht.
Qed.

Lemma tuple_lt_total l1 l2 :
  l1 ≠ l2 →
  RxnDatBasic.tuple_lt l1 l2 = true ∨ RxnDatBasic.tuple_lt l2 l1 = true.
Proof.
  revert l2. induction l1 as [|x l1 IH]; intros [|y l2] Hne; simpl;
    try done; auto.
  repeat case_bool_decide; subst; try done.
  - apply IH. congruence.
  - by apply string_ltb_total.
Qed.

Lemma uid_lt_irrefl u : RxnDatBasic.uid_lt u u = false.
Proof.
  destruct u as [[o p] r]. simpl.
  rewrite !bool_decide_eq_true_2 by done. apply tuple_lt_irrefl.
Qed.

Lemma uid_lt_trans u1 u2 u3 :
  RxnDatBasic.uid_lt u1 u2 = true → RxnDatBasic.uid_lt u2 u3 = true →
  RxnDatBasic.uid_lt u1 u3 = true.
Proof.
  destruct u1 as [[o1 p1] r1], u2 as [[o2 p2] r2], u3 as [[o3 p3] r3].
  simpl. intros H1 H2.
  repeat case_bool_decide; subst; try done; try congruence;
    try (by eapply tuple_lt_trans); try (by eapply string_ltb_trans).
  all: exfalso;
    first [ pose proof (string_ltb_trans _ _ _ H1 H2) as Ht;
            by rewrite string_ltb_irrefl in Ht
          | pose proof (tuple_lt_trans _ _ _ H1 H2) as Ht;
            by rewrite tuple_lt_irrefl in Ht ].
Qed.

Lemma uid_lt_total u1 u2 :
  u1 ≠ u2 →
  RxnDatBasic.uid_lt u1 u2 = true ∨ RxnDatBasic.uid_lt u2 u1 = true.
Proof.
  destruct u1 as [[o1 p1] r1], u2 as [[o2 p2] r2]. intros Hne. simpl.
  repeat case_bool_decide; subst; try done.
  - apply tuple_lt_total. congruence.
  - by apply tuple_lt_total.
  - by apply string_ltb_total.
Qed.

Lemma RxnDatBasic_less_uid a b :
  RxnDatBasic_less a b
  = OK (RxnDatBasic.uid_lt (RxnDatBasic.uid a).1 (RxnDatBasic.uid b).1).
Proof.
  unfold RxnDatBasic_less, RxnDatBasic.__lt__.
  by destruct (RxnDatBasic.uid a), (RxnDatBasic.uid b).
Qed.

(** X11.  [__lt__] orders reaction units by their uids: it never returns
    true for a unit and itself, it is transitive, two units with different
    uids are ordered one way and never both ways, and comparing a reaction
    unit with anything that is not one raises [NotImplementedError]. *)
Theorem RxnDatBasic_lt_strict_total_order (a b c : RxnDatBasic.t) :
  RxnDatBasic_less a a = OK false
  ∧ (RxnDatBasic_less a b = OK true → RxnDatBasic_less b c = OK true →
     RxnDatBasic_less a c = OK true)
  ∧ ((RxnDatBasic.uid a).1 ≠ (RxnDatBasic.uid b).1 →
     RxnDatBasic_less a b = OK true ∨ RxnDatBasic_less b a = OK true)
  ∧ (RxnDatBasic_less a b = OK true → RxnDatBasic_less b a = OK false)
  ∧ ((RxnDatBasic.uid a).1 = (RxnDatBasic.uid b).1 →
     RxnDatBasic_less a b = OK false ∧ RxnDatBasic_less b a = OK false)
  ∧ (∀ v, ∃ e, RxnDatBasic.__lt__ a (RxnDatBasic.OtherObject v) = Raise e
               ∧ exn_type e = NotImplementedError).
Proof.
  rewrite !RxnDatBasic_less_uid.
  split; [by rewrite uid_lt_irrefl|].
  split; [intros [= H1] [= H2]; by rewrite (uid_lt_trans _ _ _ H1 H2)|].
  split.
  { intros Hne. destruct (uid_lt_total _ _ Hne) as [-> | ->]; auto. }
  split.
  { intros [= H1]. f_equal.
    destruct (RxnDatBasic.uid_lt (RxnDatBasic.uid b).1 (RxnDatBasic.uid a).1)
      eqn:H2; [|done].
    pose proof (uid_lt_trans _ _ _ H1 H2) as Ht.
    by rewrite uid_lt_irrefl in Ht. }
  split; [intros ->; by rewrite uid_lt_irrefl|].
  intros v. eexists. split; done.
Qed.

Lemma RxnDatBasic_lt_strict_total_order_witness :
  RxnDatBasic_less
    {| RxnDatBasic._blob := None; RxnDatBasic._operator := "op";
       RxnDatBasic._products := ["c"]; RxnDatBasic._reactants := ["a"];
       RxnDatBasic._uid := None |}
    {| RxnDatBasic._blob := None; RxnDatBasic._operator := "op";
       RxnDatBasic._products := ["c"]; RxnDatBasic._reactants := ["a"; "b"];
       RxnDatBasic._uid := None |}
  = OK true.
Proof.
  destruct (proj1 (proj2 (proj2
              (RxnDatBasic_lt_strict_total_order
                 {| RxnDatBasic._blob := None; RxnDatBasic._operator := "op";
                    RxnDatBasic._products := ["c"];
                    RxnDatBasic._reactants := ["a"];
                    RxnDatBasic._uid := None |}
                 {| RxnDatBasic._blob := None; RxnDatBasic._operator := "op";
                    RxnDatBasic._products := ["c"];
                    RxnDatBasic._reactants := ["a"; "b"];
                    RxnDatBasic._uid := None |}
                 {| RxnDatBasic._blob := None; RxnDatBasic._operator := "op";
                    RxnDatBasic._products := ["c"];
                    RxnDatBasic._reactants := ["a"];
                    RxnDatBasic._uid := None |}))))
    as [Hlt|Hgt].
  - vm_compute. discriminate.
  - exact Hlt.
  - vm_compute in Hgt. discriminate Hgt.
Defined.

(** ** Operator units *)

(** X12.  Whatever the payload, an operator unit that the constructor
    builds from bytes has no reaction template: reading its uid or its
    SMARTS string raises the engine's [ArgumentError], and the
    transformation step of [__call__] raises [AttributeError] on any
    molecules. *)
Theorem OpDatBasic_from_bytes_has_no_template `{ChemistryEngine}
    (payload : Pickle.payload) (engine : NetworkEngine) (kek : bool) :
  match OpDatBasic.__init__ (OpDatBasic.OpBytes payload) engine kek with
  | OK u =>
      (∃ e, exn_type e = ArgumentError
            ∧ OpDatBasic.uid u = Raise e
            ∧ OpDatBasic.smarts u = Raise e)
      ∧ (∃ e, exn_type e = AttributeError
              ∧ ∀ rdkitmols, OpDatBasic.transform u rdkitmols = Raise e)
  | Raise _ => True
  end.
Proof.
  destruct (OpDatBasic.__init__ (OpDatBasic.OpBytes payload) engine kek)
    as [u|e] eqn:Hu; [|done].
  destruct (OpDatBasic_init_bytes_unusable _ _ _ _ Hu) as [Hn Huid].
  unfold OpDatBasic.rdkitrxn in Hn.
  assert (Hs : OpDatBasic._smarts u = None).
  { unfold OpDatBasic.__init__ in Hu.
    apply result_bind_OK in Hu as ([[??]?] & _ & Hu). by injection Hu as <-. }
  split.
  - eexists. split; [|split; [exact Huid|]]; [done|].
    unfold OpDatBasic.smarts, with_rxn. by rewrite Hs, Hn.
  - eexists. split; [|intros rdkitmols;
      unfold OpDatBasic.transform, rxn_method; by rewrite Hn]. done.
Qed.

Section OpDatBasic_memo.
Context `{ChemistryEngine}.
Variable GetReactants : ChemicalReaction → list Mol.
Variable HasSubstructMatch : Mol → Mol → bool.
Import OpDatBasic.

Lemma OpDatBasic_uid_consistent (r : ChemicalReaction) (u : t) :
  OpDatBasic_consistent GetReactants r u →
  ∃ u', uid u = OK (ReactionToSmarts r, u')
        ∧ smarts u = OK (ReactionToSmarts r, u')
        ∧ uid u' = OK (ReactionToSmarts r, u')
        ∧ _kekulize u' = _kekulize u
        ∧ OpDatBasic_consistent GetReactants r u'.
Proof.
  intros (Hr & Hs & Ht). unfold uid, smarts, with_rxn. rewrite Hr.
  destruct (_smarts u) as [s|] eqn:Es.
  - rewrite (Hs s eq_refl). exists u. rewrite Es, (Hs s eq_refl).
    repeat split; try done. by rewrite Es.
  - simpl. eexists. repeat split; simpl; try done. by intros s [= <-].
Qed.

Lemma OpDatBasic_compat_templates (r : ChemicalReaction) (u : t)
    (mol : MolDatBase) (arg : Z) :
  OpDatBasic_consistent GetReactants r u →
  _templates (compat GetReactants HasSubstructMatch u mol arg).2
  = Some (GetReactants r)
  ∧ OpDatBasic_consistent GetReactants r
      (compat GetReactants HasSubstructMatch u mol arg).2
  ∧ (compat GetReactants HasSubstructMatch u mol arg).1
    = match rdkitmol_of mol with
      | Some tempmol =>
          tempmol ← (if truthy (_kekulize u) then Kekulize tempmol
                     else OK tempmol);
          template ← py_index (GetReactants r) arg;
          OK (HasSubstructMatch tempmol template)
      | None => OK false
      end.
Proof.
  intros Hc. pose proof Hc as (Hr & Hs & Ht).
  unfold compat, _build_templates, rxn_method. rewrite Hr.
  destruct (_templates u) as [ts|] eqn:Et.
  - rewrite (Ht ts eq_refl) in *.
    destruct (rdkitmol_of mol); simpl; by rewrite ?Et.
  - simpl. destruct (rdkitmol_of mol); simpl;
      (split; [done|]); (split; [|done]);
      (split; [done|]); (split; [done|]); by intros ts [= <-].
Qed.
End OpDatBasic_memo.

(** X13.  An operator unit whose template is a reaction keeps its memo
    slots coherent: [uid] and [smarts] return the same string, the SMARTS
    string that the engine gives for the template, on the first read and on
    every later one, and neither they nor [blob] nor [compat] change the
    template or the kekulize flag. *)
Theorem OpDatBasic_memo_coherent `{ChemistryEngine}
    (GetReactants : ChemicalReaction → list Mol)
    (HasSubstructMatch : Mol → Mol → bool)
    (r : ChemicalReaction) (u : OpDatBasic.t) :
  OpDatBasic_consistent GetReactants r u →
  (∃ u', OpDatBasic.uid u = OK (ReactionToSmarts r, u')
         ∧ OpDatBasic.smarts u = OK (ReactionToSmarts r, u')
         ∧ OpDatBasic.uid u' = OK (ReactionToSmarts r, u')
         ∧ OpDatBasic._kekulize u' = OpDatBasic._kekulize u
         ∧ OpDatBasic_consistent GetReactants r u')
  ∧ OpDatBasic_consistent GetReactants r (OpDatBasic.blob u).2
  ∧ OpDatBasic._kekulize (OpDatBasic.blob u).2 = OpDatBasic._kekulize u
  ∧ ∀ mol arg,
      OpDatBasic_consistent GetReactants r
        (OpDatBasic.compat GetReactants HasSubstructMatch u mol arg).2
      ∧ OpDatBasic._kekulize
          (OpDatBasic.compat GetReactants HasSubstructMatch u mol arg).2
        = OpDatBasic._kekulize u.
Proof.
  intros Hc. split; [by apply OpDatBasic_uid_consistent|].
  split; [|split].
  - unfold OpDatBasic.blob. by destruct (OpDatBasic._blob u).
  - unfold OpDatBasic.blob. by destruct (OpDatBasic._blob u).
  - intros mol arg.
    split; [by apply OpDatBasic_compat_templates|].
    destruct Hc as (Hr & _ & _).
    unfold OpDatBasic.compat, OpDatBasic._build_templates, rxn_method.
    rewrite Hr.
    by destruct (OpDatBasic._templates u), (rdkitmol_of mol).
Qed.

Lemma example_operator_consistent outcome ts :
  @OpDatBasic_consistent (string_engine outcome) (example_GetReactants ts)
    example_template (example_operator outcome).
Proof. repeat split; simpl; discriminate. Qed.

Lemma OpDatBasic_memo_coherent_witness :
  ∃ u', @OpDatBasic.uid (string_engine (OK [])) (example_operator (OK []))
        = OK ("[C:1]>>[C:1]O", u')
        ∧ @OpDatBasic.smarts (string_engine (OK [])) (example_operator (OK []))
          = OK ("[C:1]>>[C:1]O", u').
Proof.
  destruct (proj1 (@OpDatBasic_memo_coherent (string_engine (OK []))
                     (example_GetReactants ["C"]) example_HasSubstructMatch
                     example_template (example_operator (OK []))
                     (example_operator_consistent (OK []) ["C"])))
    as (u' & Hu & Hs & _).
  exists u'. split; [exact Hu|exact Hs].
Defined.

Lemma OpDatBasic_less_uid `{ChemistryEngine}
    (GetReactants : ChemicalReaction → list Mol)
    (ra rb : ChemicalReaction) (a b : OpDatBasic.t) :
  OpDatBasic_consistent GetReactants ra a →
  OpDatBasic_consistent GetReactants rb b →
  OpDatBasic_less a b
  = OK (String.ltb (ReactionToSmarts ra) (ReactionToSmarts rb)).
Proof.
  intros Ha Hb. unfold OpDatBasic_less, OpDatBasic.__lt__.
  destruct (OpDatBasic_uid_consistent GetReactants ra a Ha) as (a' & -> & _).
  destruct (OpDatBasic_uid_consistent GetReactants rb b Hb) as (b' & -> & _).
  done.
Qed.

(** X14.  [__lt__] orders operator units by their SMARTS strings alone: it
    is irreflexive and transitive, two units with different SMARTS strings
    are ordered one way, units with the same SMARTS string are not ordered
    whatever their kekulize flags, and comparing an operator unit with
    anything that is not one raises [NotImplementedError]. *)
Theorem OpDatBasic_lt_strict_total_order `{ChemistryEngine}
    (GetReactants : ChemicalReaction → list Mol)
    (ra rb rc : ChemicalReaction) (a b c : OpDatBasic.t) :
  OpDatBasic_consistent GetReactants ra a →
  OpDatBasic_consistent GetReactants rb b →
  OpDatBasic_consistent GetReactants rc c →
  OpDatBasic_less a a = OK false
  ∧ (OpDatBasic_less a b = OK true → OpDatBasic_less b c = OK true →
     OpDatBasic_less a c = OK true)
  ∧ (ReactionToSmarts ra ≠ ReactionToSmarts rb →
     OpDatBasic_less a b = OK true ∨ OpDatBasic_less b a = OK true)
  ∧ (ReactionToSmarts ra = ReactionToSmarts rb →
     OpDatBasic_less a b = OK false ∧ OpDatBasic_less b a = OK false)
  ∧ (∀ v, ∃ e, OpDatBasic.__lt__ a (OpDatBasic.OtherObject v) = Raise e
               ∧ exn_type e = NotImplementedError).
Proof.
  intros Ha Hb Hc.
  rewrite !(OpDatBasic_less_uid GetReactants ra ra a a Ha Ha),
    !(OpDatBasic_less_uid GetReactants ra rb a b Ha Hb),
    !(OpDatBasic_less_uid GetReactants rb rc b c Hb Hc),
    !(OpDatBasic_less_uid GetReactants ra rc a c Ha Hc),
    !(OpDatBasic_less_uid GetReactants rb ra b a Hb Ha).
  split; [by rewrite string_ltb_irrefl|].
  split; [intros [= H1] [= H2]; by rewrite (string_ltb_trans _ _ _ H1 H2)|].
  split.
  { intros Hne. destruct (string_ltb_total _ _ Hne) as [-> | ->]; auto. }
  split; [intros ->; by rewrite string_ltb_irrefl|].
  intros v. eexists. split; done.
Qed.

Lemma OpDatBasic_lt_strict_total_order_witness :
  @OpDatBasic_less (string_engine (OK [])) (example_operator (OK []))
    (example_operator (OK []))
  = OK false.
Proof.
  exact (proj1 (@OpDatBasic_lt_strict_total_order (string_engine (OK []))
                  (example_GetReactants ["C"]) example_template
                  example_template example_template
                  (example_operator (OK [])) (example_operator (OK []))
                  (example_operator (OK []))
                  (example_operator_consistent (OK []) ["C"])
                  (example_operator_consistent (OK []) ["C"])
                  (example_operator_consistent (OK []) ["C"]))).
Defined.

Lemma traverse_app_Raise {A B} (f : A → result B) (before after : list A)
    (x : A) (e : exn) :
  Forall (λ y, ∃ k, f y = OK k) before → f x = Raise e →
  traverse f (before ++ x :: after) = Raise e.
Proof.
  intros Hb Hx. induction Hb as [|y l [k Hk] _ IH]; simpl.
  - by rewrite Hx.
  - by rewrite Hk, IH.
Qed.

Lemma traverse_OK_Forall2 {A B} (f : A → result B) (l : list A)
    (l' : list B) :
  traverse f l = OK l' ↔ Forall2 (λ a b, f a = OK b) l l'.
Proof.
  revert l'. induction l as [|a l IH]; intros l'; simpl.
  - split; [intros [= <-]; constructor|by inversion 1].
  - split.
    + intros Ht. bind_OK Ht. bind_OK Ht. injection Ht as <-.
      constructor; [done|]. by apply IH.
    + inversion 1 as [|? b ? bs Hab Hl]; subst.
      apply IH in Hl. by rewrite Hab, Hl.
Qed.

Lemma omap_rdkitmol_filter `{ChemistryEngine} (rs : list MolDatBase) :
  omap rdkitmol_of (List.filter is_rdkit rs) = omap rdkitmol_of rs.
Proof.
  induction rs as [|x rs IH]; [done|]. cbn [List.filter].
  destruct (is_rdkit x) eqn:Ei; unfold is_rdkit in Ei;
    destruct (rdkitmol_of x) as [m|] eqn:Ex; try done;
    cbn [omap list_omap]; rewrite Ex, IH; done.
Qed.

(** X15.  When the kekulize flag is set and the engine fails to kekulize
    one of the reactants, [__call__] raises the engine's exception as it
    is, also when it is a [KekulizeException]: the normalization of the
    reactants stands before the [try] statement. *)
Theorem OpDatBasic_call_kekulize_failure_escapes `{ChemistryEngine}
    (repr_str : string → string) (repr_reactants : list MolDatBase → string)
    (self : OpDatBasic.t) (before after : list MolDatBase)
    (x : MolDatBase) (m : Mol) (e : exn) :
  truthy (OpDatBasic._kekulize self) = true →
  Forall (λ y, ∀ m', rdkitmol_of y = Some m' → ∃ k, Kekulize m' = OK k)
    before →
  rdkitmol_of x = Some m →
  Kekulize m = Raise e →
  OpDatBasic.__call__ repr_str repr_reactants self (before ++ x :: after)
  = Raise e.
Proof.
  intros Hk Hb Hx He. unfold OpDatBasic.__call__, OpDatBasic.normalize.
  rewrite Hk, omap_app. simpl. rewrite Hx.
  rewrite (traverse_app_Raise Kekulize _ _ m e); [done| |done].
  clear -Hb. induction Hb as [|y l Hy _ IH]; simpl; [constructor|].
  destruct (rdkitmol_of y) as [m'|]; [|done].
  constructor; [by apply Hy|done].
Qed.

Lemma OpDatBasic_call_kekulize_failure_escapes_witness :
  @OpDatBasic.__call__ (picky_engine "c1cccc1") quote_repr count_repr
    (picky_operator "c1cccc1")
    ([picky_molecule "c1cccc1" "CC"]
     ++ picky_molecule "c1cccc1" "c1cccc1"
     :: [picky_molecule "c1cccc1" "O"])
  = Raise kekulize_error.
Proof.
  apply (@OpDatBasic_call_kekulize_failure_escapes (picky_engine "c1cccc1")
           quote_repr count_repr (picky_operator "c1cccc1")
           [picky_molecule "c1cccc1" "CC"] [picky_molecule "c1cccc1" "O"]
           (picky_molecule "c1cccc1" "c1cccc1") "c1cccc1" kekulize_error).
  - reflexivity.
  - constructor; [|constructor]. intros m' [= <-]. by eexists.
  - reflexivity.
  - reflexivity.
Defined.

(** X16.  [__call__] passes to the engine the structural objects of the
    reactants that are RDKit molecule units and silently leaves the other
    reactants out: it returns the same products with and without them. *)
Theorem OpDatBasic_call_drops_foreign_reactants `{ChemistryEngine}
    (repr_str : string → string) (repr_reactants : list MolDatBase → string)
    (self : OpDatBasic.t) (reactants : list MolDatBase) :
  OpDatBasic.normalize self (List.filter is_rdkit reactants)
  = OpDatBasic.normalize self reactants
  ∧ ∀ products,
      OpDatBasic.__call__ repr_str repr_reactants self reactants
      = OK products
      ↔ OpDatBasic.__call__ repr_str repr_reactants self
          (List.filter is_rdkit reactants)
        = OK products.
Proof.
  assert (Hn : OpDatBasic.normalize self (List.filter is_rdkit reactants)
               = OpDatBasic.normalize self reactants).
  { unfold OpDatBasic.normalize. by rewrite omap_rdkitmol_filter. }
  split; [done|]. intros products. unfold OpDatBasic.__call__. rewrite Hn.
  destruct (OpDatBasic.normalize self reactants) as [mols|e]; simpl; [|done].
  destruct (OpDatBasic.transform self mols) as [p|err]; [done|].
  repeat case_bool_decide; done.
Qed.

(** X17.  When [__call__] returns, the template of the unit is a reaction,
    the engine has returned product sets for the structural objects of the
    reactants, and the result holds, set by set and in the engine's order,
    the molecule units that the factory of the network engine made of the
    products. *)
Theorem OpDatBasic_call_success_shape `{ChemistryEngine}
    (repr_str : string → string) (repr_reactants : list MolDatBase → string)
    (self : OpDatBasic.t) (reactants : list MolDatBase)
    (products : list (list MolDatBase)) :
  OpDatBasic.__call__ repr_str repr_reactants self reactants = OK products →
  ∃ r rdkitmols product_sets,
    as_rxn (OpDatBasic.rdkitrxn self) = Some r
    ∧ OpDatBasic.normalize self reactants = OK rdkitmols
    ∧ length rdkitmols = length (List.filter is_rdkit reactants)
    ∧ RunReactants r rdkitmols = OK product_sets
    ∧ Forall2 (Forall2 (λ m d, engine_Mol (OpDatBasic._engine self) m = OK d))
        product_sets products.
Proof.
  unfold OpDatBasic.__call__. intros Hc. bind_OK Hc. rename a into mols.
  destruct (OpDatBasic.transform self mols) as [p|err] eqn:Et.
  2:{ by repeat case_bool_decide. }
  injection Hc as <-. unfold OpDatBasic.transform, rxn_method in Et.
  unfold OpDatBasic.rdkitrxn.
  destruct (as_rxn (OpDatBasic._rdkitrxn self)) as [r|]; [|done].
  bind_OK Et. rename a into sets. exists r, mols, sets.
  split; [done|]. split; [done|]. split.
  - revert E. unfold OpDatBasic.normalize.
    assert (Hl : length (omap rdkitmol_of reactants)
                 = length (List.filter is_rdkit reactants)).
    { clear. induction reactants as [|x l IH]; [done|]. cbn [List.filter].
      destruct (is_rdkit x) eqn:Ei; unfold is_rdkit in Ei;
        destruct (rdkitmol_of x) as [m|] eqn:Ex; try done;
        cbn [omap list_omap]; rewrite Ex; simpl; by rewrite IH. }
    destruct (truthy (OpDatBasic._kekulize self)).
    + intros Ht%traverse_OK_Forall2. apply Forall2_length in Ht. congruence.
    + intros [= <-]. done.
  - split; [done|]. apply traverse_OK_Forall2 in Et.
    eapply Forall2_impl; [exact Et|]. intros ms ds Hms.
    by apply traverse_OK_Forall2.
Qed.

Lemma OpDatBasic_call_success_shape_witness :
  ∃ r rdkitmols product_sets,
    as_rxn (OpDatBasic.rdkitrxn (example_operator (OK [["CCO"; "O"]])))
    = Some r
    ∧ OpDatBasic.normalize (example_operator (OK [["CCO"; "O"]]))
        (example_reactants (OK [["CCO"; "O"]])) = OK rdkitmols
    ∧ length rdkitmols
      = length (List.filter is_rdkit (example_reactants (OK [["CCO"; "O"]])))
    ∧ @RunReactants (string_engine (OK [["CCO"; "O"]])) r rdkitmols
      = OK product_sets
    ∧ Forall2
        (Forall2 (λ m d,
           engine_Mol (OpDatBasic._engine (example_operator (OK [["CCO"; "O"]])))
             m = OK d))
        product_sets
        [[@MolOther (string_engine (OK [["CCO"; "O"]])) "CCO";
          @MolOther (string_engine (OK [["CCO"; "O"]])) "O"]].
Proof.
  apply (@OpDatBasic_call_success_shape (string_engine (OK [["CCO"; "O"]]))
           quote_repr count_repr (example_operator (OK [["CCO"; "O"]]))
           (example_reactants (OK [["CCO"; "O"]]))).
  reflexivity.
Defined.

Lemma py_index_nonneg {A} (l : list A) (i : Z) (x : A) :
  (0 ≤ i)%Z → l !! Z.to_nat i = Some x → py_index l i = OK x.
Proof.
  intros Hi Hl. unfold py_index.
  rewrite (bool_decide_eq_false_2 (i < 0)%Z) by lia.
  apply lookup_lt_Some in Hl as Hlt.
  rewrite bool_decide_eq_true_2 by lia. by rewrite Hl.
Qed.

Lemma py_index_negative {A} (l : list A) (i : Z) :
  (i < 0)%Z → py_index l i = py_index l (i + Z.of_nat (length l))
              ∨ (i < - Z.of_nat (length l))%Z.
Proof.
  intros Hi. destruct (decide (i < - Z.of_nat (length l))%Z); [by right|].
  left. unfold py_index.
  rewrite (bool_decide_eq_true_2 (i < 0)%Z) by done.
  by rewrite (bool_decide_eq_false_2 (i + Z.of_nat (length l) < 0)%Z) by lia.
Qed.

Lemma py_index_out_of_range {A} (l : list A) (i : Z) :
  (i < - Z.of_nat (length l) ∨ Z.of_nat (length l) ≤ i)%Z →
  py_index l i = Raise (Exn IndexError "tuple index out of range" None).
Proof.
  intros Hi. unfold py_index.
  destruct (decide (i < 0)%Z).
  - rewrite (bool_decide_eq_true_2 (i < 0)%Z) by done.
    by rewrite bool_decide_eq_false_2 by lia.
  - rewrite (bool_decide_eq_false_2 (i < 0)%Z) by done.
    by rewrite bool_decide_eq_false_2 by lia.
Qed.

(** X18.  For an RDKit molecule and an operator without the kekulize flag,
    [compat] tests the molecule against the reactant template that the
    index selects as Python indexes a tuple: an index from 0 up to the
    number of templates selects from the front, a negative index down to
    minus that number selects from the end, and any other index raises
    [IndexError]. *)
Theorem OpDatBasic_compat_indexing `{ChemistryEngine}
    (GetReactants : ChemicalReaction → list Mol)
    (HasSubstructMatch : Mol → Mol → bool)
    (r : ChemicalReaction) (self : OpDatBasic.t) (mol : MolDatBase)
    (m : Mol) (arg : Z) :
  OpDatBasic_consistent GetReactants r self →
  truthy (OpDatBasic._kekulize self) = false →
  rdkitmol_of mol = Some m →
  (∀ template,
     (0 ≤ arg)%Z → GetReactants r !! Z.to_nat arg = Some template →
     (OpDatBasic.compat GetReactants HasSubstructMatch self mol arg).1
     = OK (HasSubstructMatch m template))
  ∧ ((- Z.of_nat (length (GetReactants r)) ≤ arg < 0)%Z →
     (OpDatBasic.compat GetReactants HasSubstructMatch self mol arg).1
     = (OpDatBasic.compat GetReactants HasSubstructMatch self mol
          (arg + Z.of_nat (length (GetReactants r)))).1)
  ∧ ((arg < - Z.of_nat (length (GetReactants r))
      ∨ Z.of_nat (length (GetReactants r)) ≤ arg)%Z →
     (OpDatBasic.compat GetReactants HasSubstructMatch self mol arg).1
     = Raise (Exn IndexError "tuple index out of range" None)).
Proof.
  intros Hc Hk Hm.
  assert (Hcompat : ∀ i,
    (OpDatBasic.compat GetReactants HasSubstructMatch self mol i).1
    = template ← py_index (GetReactants r) i;
      OK (HasSubstructMatch m template)).
  { intros i.
    destruct (OpDatBasic_compat_templates GetReactants HasSubstructMatch
                r self mol i Hc) as (_ & _ & ->).
    by rewrite Hm, Hk. }
  rewrite !Hcompat. split; [|split].
  - intros template Hi Hl. by rewrite (py_index_nonneg _ _ _ Hi Hl).
  - intros [Hlo Hhi]. destruct (py_index_negative (GetReactants r) arg Hhi)
      as [-> | ?]; [done|lia].
  - intros Hi. by rewrite py_index_out_of_range.
Qed.

Lemma OpDatBasic_compat_indexing_witness :
  (@OpDatBasic.compat (string_engine (OK []))
     (example_GetReactants ["CC"; "O"]) example_HasSubstructMatch
     (example_operator (OK []) : @OpDatBasic.t (string_engine (OK [])))
     (@MolOther (string_engine (OK [])) "x") 5).1
  = OK false
  ∧ (@OpDatBasic.compat (string_engine (OK []))
       (example_GetReactants ["CC"; "O"]) example_HasSubstructMatch
       {| OpDatBasic._blob := None;
          OpDatBasic._engine := string_network_engine (OK []);
          OpDatBasic._kekulize := PBool false;
          OpDatBasic._rdkitrxn := rxn_object example_template;
          OpDatBasic._smarts := None;
          OpDatBasic._templates := None;
          OpDatBasic._uid := None |}
       (@MolV1 (string_engine (OK []))
          (@MolDatBasicV1._buildfrommol (string_engine (OK [])) "O"))
       (-1)).1
    = (@OpDatBasic.compat (string_engine (OK []))
         (example_GetReactants ["CC"; "O"]) example_HasSubstructMatch
         {| OpDatBasic._blob := None;
            OpDatBasic._engine := string_network_engine (OK []);
            OpDatBasic._kekulize := PBool false;
            OpDatBasic._rdkitrxn := rxn_object example_template;
            OpDatBasic._smarts := None;
            OpDatBasic._templates := None;
            OpDatBasic._uid := None |}
         (@MolV1 (string_engine (OK []))
            (@MolDatBasicV1._buildfrommol (string_engine (OK [])) "O"))
         (-1 + Z.of_nat (length (example_GetReactants ["CC"; "O"]
                                   example_template)))).1.
Proof.
  split; [reflexivity|].
  refine (proj1 (proj2 (@OpDatBasic_compat_indexing (string_engine (OK []))
            (example_GetReactants ["CC"; "O"]) example_HasSubstructMatch
            example_template _ _ "O" (-1) _ _ _)) _).
  - repeat split; simpl; discriminate.
  - reflexivity.
  - reflexivity.
  - simpl. lia.
Defined.

(** X19.  For a molecule that is not an RDKit molecule unit, [compat]
    returns false for every index, also one for which the operator has no
    template.  For an RDKit molecule and an operator with the kekulize
    flag, a failure of the engine to kekulize the molecule is raised as it
    is, before the index is looked at.  In both cases, and in every other,
    the call leaves the reactant templates of the reaction in the memo
    slot. *)
Theorem OpDatBasic_compat_edges `{ChemistryEngine}
    (GetReactants : ChemicalReaction → list Mol)
    (HasSubstructMatch : Mol → Mol → bool)
    (r : ChemicalReaction) (self : OpDatBasic.t) (mol : MolDatBase)
    (arg : Z) :
  OpDatBasic_consistent GetReactants r self →
  (rdkitmol_of mol = None →
   (OpDatBasic.compat GetReactants HasSubstructMatch self mol arg).1
   = OK false)
  ∧ (∀ m e, rdkitmol_of mol = Some m →
            truthy (OpDatBasic._kekulize self) = true →
            Kekulize m = Raise e →
            (OpDatBasic.compat GetReactants HasSubstructMatch self mol arg).1
            = Raise e)
  ∧ OpDatBasic._templates
      (OpDatBasic.compat GetReactants HasSubstructMatch self mol arg).2
    = Some (GetReactants r)
  ∧ OpDatBasic.compat GetReactants HasSubstructMatch
      (OpDatBasic.compat GetReactants HasSubstructMatch self mol arg).2
      mol arg
    = OpDatBasic.compat GetReactants HasSubstructMatch self mol arg.
Proof.
  intros Hc.
  destruct (OpDatBasic_compat_templates GetReactants HasSubstructMatch
              r self mol arg Hc) as (Ht & Hc' & Hres).
  split; [intros Hn; by rewrite Hres, Hn|].
  split; [intros m e Hm Hk He; by rewrite Hres, Hm, Hk, He|].
  split; [done|].
  destruct (OpDatBasic_compat_templates GetReactants HasSubstructMatch
              r _ mol arg Hc') as (Ht' & _ & Hres').
  apply injective_projections.
  - rewrite Hres', Hres.
    assert (Hk : OpDatBasic._kekulize
                   (OpDatBasic.compat GetReactants HasSubstructMatch
                      self mol arg).2 = OpDatBasic._kekulize self).
    { destruct Hc as (Hr & _ & _).
      unfold OpDatBasic.compat, OpDatBasic._build_templates, rxn_method.
      rewrite Hr.
      by destruct (OpDatBasic._templates self), (rdkitmol_of mol). }
    by rewrite Hk.
  - assert (Hfix : ∀ u ts, OpDatBasic._templates u = Some ts →
              (OpDatBasic.compat GetReactants HasSubstructMatch u mol arg).2
              = u).
    { intros u ts Hu. unfold OpDatBasic.compat. rewrite Hu.
      by destruct (rdkitmol_of mol). }
    by rewrite (Hfix _ _ Ht).
Qed.

Lemma OpDatBasic_compat_edges_witness :
  (@OpDatBasic.compat (string_engine (OK []))
     (example_GetReactants ["CC"; "O"]) example_HasSubstructMatch
     (example_operator (OK []) : @OpDatBasic.t (string_engine (OK [])))
     (@MolOther (string_engine (OK [])) "x") 5).1
  = OK false.
Proof.
  refine (proj1 (@OpDatBasic_compat_edges (string_engine (OK []))
            (example_GetReactants ["CC"; "O"]) example_HasSubstructMatch
            example_template (example_operator (OK []))
            (@MolOther (string_engine (OK [])) "x") 5
            (example_operator_consistent (OK []) ["CC"; "O"])) _).
  reflexivity.
Defined.

(** ** The generation calculator *)

Section generation_more.
Import GenerationCalculator.
Context {K : Type} `{Countable K}.
Context {Item : Type} `{EqDecision Item}.
Context {Op : Type}.

Local Abbreviation packet := (@DataPacketE K _ _ Item).
Local Abbreviation reaction := (@ReactionExplicit K _ _ Item Op).

Implicit Types (self : @t K) (data r : packet) (rxn : reaction)
  (rs : list packet).

Lemma carried_or_lacking self rs :
  Forall (λ r, is_Some (generation self r)) rs
  ∨ Exists (λ r, generation self r = None) rs.
Proof.
  induction rs as [|r rs [IH|IH]]; [by left| |].
  - destruct (generation self r) eqn:Eg.
    + left. constructor; [by rewrite Eg|done].
    + right. by constructor.
  - right. by constructor.
Qed.

Lemma call_lacking self data rxn prev_value :
  Exists (λ r, generation self r = None) (reactants rxn) →
  __call__ self data rxn prev_value = None.
Proof.
  intros Hex. unfold __call__. case_bool_decide; [done|].
  by rewrite loop_lacking.
Qed.

Lemma call_Some_candidate self data rxn prev_value c :
  __call__ self data rxn prev_value = Some c →
  (data ∉ reactants rxn) ∧ candidate self rxn = Some c
  ∧ accepts self data prev_value c = true.
Proof.
  intros Hc.
  assert (Hd : data ∉ reactants rxn).
  { intros Hin. unfold __call__ in Hc.
    by rewrite bool_decide_eq_true_2 in Hc. }
  split; [done|].
  destruct (carried_or_lacking self (reactants rxn)) as [Hall|Hex].
  2:{ by rewrite call_lacking in Hc. }
  destruct (decide (reactants rxn = [])) as [Hnil|Hne].
  { unfold __call__ in Hc. rewrite Hnil in Hc.
    rewrite bool_decide_eq_false_2 in Hc by apply not_elem_of_nil.
    done. }
  destruct (candidate_defined self rxn Hne Hall) as [c' Hc'].
  rewrite (call_candidate self data rxn prev_value c' Hd Hc') in Hc.
  destruct (accepts self data prev_value c') eqn:Ea; [|done].
  by injection Hc as <-.
Qed.

Lemma loop_view self rs rs' cur_gen :
  generation self <$> rs = generation self <$> rs' →
  loop self rs cur_gen = loop self rs' cur_gen.
Proof.
  revert rs' cur_gen. induction rs as [|r rs IH]; intros [|r' rs'] cur_gen;
    try done.
  rewrite !fmap_cons. intros [= Hr Hrs].
  destruct (generation self r) as [g|] eqn:Eg.
  - rewrite (loop_step _ _ _ _ _ Eg).
    symmetry in Hr. rewrite (loop_step _ _ _ _ _ Hr). by apply IH.
  - rewrite !loop_lacking; [done|by constructor|by constructor].
Qed.
End generation_more.

(** X20.  Whenever [__call__] proposes a value, the evaluated packet is
    equal to none of the reactant packets, the value is one more than the
    largest generation of the reactants and so larger than the generation
    of every reactant, it does not exceed [prev_value], and it is smaller
    than the value stored for the molecule, so that the resolver keeps the
    proposed value against the stored one. *)
Theorem GenerationCalculator_call_proposal
    {K : Type} `{Countable K} {Item : Type} `{EqDecision Item} {Op : Type}
    (self : @GenerationCalculator.t K)
    (data : @GenerationCalculator.DataPacketE K _ _ Item)
    (rxn : @GenerationCalculator.ReactionExplicit K _ _ Item Op)
    (prev_value : option Z) (c : Z) :
  GenerationCalculator.__call__ self data rxn prev_value = Some c →
  (data ∉ GenerationCalculator.reactants rxn)
  ∧ candidate self rxn = Some c
  ∧ (∀ r, r ∈ GenerationCalculator.reactants rxn →
          ∃ g, GenerationCalculator.generation self r = Some g ∧ (g < c)%Z)
  ∧ (∃ r, r ∈ GenerationCalculator.reactants rxn
          ∧ GenerationCalculator.generation self r = Some (c - 1)%Z)
  ∧ (∀ p, prev_value = Some p → (c ≤ p)%Z)
  ∧ (∀ s, GenerationCalculator.stored self data = Some s →
          (c < s)%Z ∧ GenerationCalculator.resolver self c s = c).
Proof.
  intros (Hd & Hc & Ha)%call_Some_candidate.
  destruct (candidate_is_max self rxn c Hc) as [Hmax Hle].
  apply accepts_spec in Ha as [Hp Hs].
  split; [done|]. split; [done|]. split.
  { intros r Hr. destruct (Hle r Hr) as (g & Hg & ?). exists g.
    split; [done|lia]. }
  split; [done|]. split; [done|].
  intros s Hst. specialize (Hs s Hst).
  unfold GenerationCalculator.resolver. split; lia.
Qed.

Lemma GenerationCalculator_call_proposal_witness :
  candidate gen_calc
    (reaction_of [mol_packet "A" (Some 0%Z); mol_packet "B" (Some 1%Z)]
                 [mol_packet "C" (Some 7%Z)])
  = Some 2%Z.
Proof.
  apply (GenerationCalculator_call_proposal gen_calc
           (mol_packet "C" (Some 7%Z))
           (reaction_of [mol_packet "A" (Some 0%Z); mol_packet "B" (Some 1%Z)]
                        [mol_packet "C" (Some 7%Z)])
           (Some 4%Z) 2%Z).
  vm_compute. reflexivity.
Defined.

(** X21.  The proposal of [__call__] does not depend on the order in which
    the reaction lists its reactants. *)
Theorem GenerationCalculator_call_reactant_order
    {K : Type} `{Countable K} {Item : Type} `{EqDecision Item} {Op : Type}
    (self : @GenerationCalculator.t K)
    (data : @GenerationCalculator.DataPacketE K _ _ Item)
    (rxn rxn' : @GenerationCalculator.ReactionExplicit K _ _ Item Op)
    (prev_value : option Z) :
  GenerationCalculator.reactants rxn ≡ₚ GenerationCalculator.reactants rxn' →
  GenerationCalculator.__call__ self data rxn prev_value
  = GenerationCalculator.__call__ self data rxn' prev_value.
Proof.
  intros Hp.
  destruct (decide (data ∈ GenerationCalculator.reactants rxn)) as [Hin|Hd].
  { assert (Hin' : data ∈ GenerationCalculator.reactants rxn')
      by (by rewrite <- Hp).
    unfold GenerationCalculator.__call__.
    by rewrite !bool_decide_eq_true_2. }
  assert (Hd' : data ∉ GenerationCalculator.reactants rxn')
    by (by rewrite <- Hp).
  destruct (carried_or_lacking self (GenerationCalculator.reactants rxn))
    as [Hall|Hex].
  2:{ rewrite !call_lacking; [done| |done]. by rewrite <- Hp. }
  assert (Hall' : Forall (λ r, is_Some (GenerationCalculator.generation self r))
                    (GenerationCalculator.reactants rxn'))
    by (by rewrite <- Hp).
  destruct (decide (GenerationCalculator.reactants rxn = [])) as [Hnil|Hne].
  { rewrite Hnil in Hp. apply Permutation_nil_l in Hp.
    unfold GenerationCalculator.__call__. by rewrite Hnil, Hp. }
  assert (Hne' : GenerationCalculator.reactants rxn' ≠ []).
  { intros Hnil'. rewrite Hnil' in Hp. by apply Permutation_nil_r in Hp. }
  destruct (candidate_defined self rxn Hne Hall) as [c Hc].
  destruct (candidate_defined self rxn' Hne' Hall') as [c' Hc'].
  rewrite (call_candidate self data rxn prev_value c Hd Hc),
    (call_candidate self data rxn' prev_value c' Hd' Hc').
  destruct (candidate_is_max self rxn c Hc) as [(r & Hr & Hg) Hle].
  destruct (candidate_is_max self rxn' c' Hc') as [(r' & Hr' & Hg') Hle'].
  rewrite Hp in Hr. rewrite <- Hp in Hr'.
  destruct (Hle' r Hr) as (g & Hg2 & ?), (Hle r' Hr') as (g' & Hg2' & ?).
  assert (c = c') as -> by (simplify_eq; lia). done.
Qed.

Lemma GenerationCalculator_call_reactant_order_witness :
  GenerationCalculator.__call__ gen_calc (mol_packet "C" None)
    (reaction_of [mol_packet "A" (Some 0%Z); mol_packet "B" (Some 1%Z)] [])
    None
  = GenerationCalculator.__call__ gen_calc (mol_packet "C" None)
      (reaction_of [mol_packet "B" (Some 1%Z); mol_packet "A" (Some 0%Z)] [])
      None.
Proof.
  apply (GenerationCalculator_call_reactant_order gen_calc
           (mol_packet "C" None)
           (reaction_of [mol_packet "A" (Some 0%Z); mol_packet "B" (Some 1%Z)]
                        [])
           (reaction_of [mol_packet "B" (Some 1%Z); mol_packet "A" (Some 0%Z)]
                        [])
           None).
  apply perm_swap.
Defined.

(** X22.  [__call__] reads the snapshots through the key it declares in
    [meta_required] only: two calls whose packets carry the same entries
    for that key, and in which the evaluated molecule is a reactant in both
    or in neither, return the same proposal, whatever else the snapshots
    hold. *)
Theorem GenerationCalculator_call_reads_declared_key
    {K : Type} `{Countable K} {Item : Type} `{EqDecision Item} {Op : Type}
    (self : @GenerationCalculator.t K)
    (data data' : @GenerationCalculator.DataPacketE K _ _ Item)
    (rxn rxn' : @GenerationCalculator.ReactionExplicit K _ _ Item Op)
    (prev_value : option Z) :
  (∀ k, k ∈ GenerationCalculator.meta_required self →
        lookup_meta k data = lookup_meta k data'
        ∧ lookup_meta k <$> GenerationCalculator.reactants rxn
          = lookup_meta k <$> GenerationCalculator.reactants rxn') →
  (data ∈ GenerationCalculator.reactants rxn
   ↔ data' ∈ GenerationCalculator.reactants rxn') →
  GenerationCalculator.__call__ self data rxn prev_value
  = GenerationCalculator.__call__ self data' rxn' prev_value.
Proof.
  intros Hk Hin.
  destruct (Hk (GenerationCalculator.gen_key self)) as [Hd Hrs].
  { unfold GenerationCalculator.meta_required. set_solver. }
  unfold GenerationCalculator.__call__.
  rewrite (bool_decide_ext _ _ Hin).
  rewrite (loop_view self _ _ None Hrs).
  unfold lookup_meta in Hd.
  destruct (GenerationCalculator.meta data) as [m|],
    (GenerationCalculator.meta data') as [m'|]; simpl in Hd;
    rewrite ?Hd; try done.
  - by rewrite <- Hd.
Qed.

Lemma GenerationCalculator_call_reads_declared_key_witness :
  GenerationCalculator.__call__ gen_calc
    {| GenerationCalculator.item := "C";
       GenerationCalculator.meta := Some {[ "mass" := 46%Z ]} |}
    (reaction_of [mol_packet "A" (Some 0%Z)] []) None
  = GenerationCalculator.__call__ gen_calc (mol_packet "C" None)
      (reaction_of
         [{| GenerationCalculator.item := "A";
             GenerationCalculator.meta :=
               Some {[ "generation" := 0%Z; "mass" := 30%Z ]} |}] [])
      None.
Proof.
  apply (GenerationCalculator_call_reads_declared_key gen_calc
           {| GenerationCalculator.item := "C";
              GenerationCalculator.meta := Some {[ "mass" := 46%Z ]} |}
           (mol_packet "C" None)
           (reaction_of [mol_packet "A" (Some 0%Z)] [])
           (reaction_of
              [{| GenerationCalculator.item := "A";
                  GenerationCalculator.meta :=
                    Some {[ "generation" := 0%Z; "mass" := 30%Z ]} |}] [])
           None).
  - intros k Hk. unfold GenerationCalculator.meta_required in Hk.
    apply elem_of_singleton in Hk as ->. split; vm_compute; reflexivity.
  - split; intros Hin%list_elem_of_singleton; discriminate Hin.
Defined.

(** X23.  Once a proposal of [__call__] is stored for the molecule, the
    same reaction gives no further update for it, whatever [prev_value]
    is. *)
Theorem GenerationCalculator_call_settles
    {K : Type} `{Countable K} {Item : Type} `{EqDecision Item} {Op : Type}
    (self : @GenerationCalculator.t K)
    (data data' : @GenerationCalculator.DataPacketE K _ _ Item)
    (rxn : @GenerationCalculator.ReactionExplicit K _ _ Item Op)
    (prev_value prev_value' : option Z) (c : Z) :
  GenerationCalculator.__call__ self data rxn prev_value = Some c →
  GenerationCalculator.stored self data' = Some c →
  GenerationCalculator.__call__ self data' rxn prev_value' = None.
Proof.
  intros (_ & Hc & _)%call_Some_candidate Hs.
  destruct (decide (data' ∈ GenerationCalculator.reactants rxn)) as [Hin|Hd].
  { unfold GenerationCalculator.__call__.
    by rewrite bool_decide_eq_true_2. }
  rewrite (call_candidate self data' rxn prev_value' c Hd Hc).
  destruct (accepts self data' prev_value' c) eqn:Ea; [|done].
  apply accepts_spec in Ea as [_ Hlt]. specialize (Hlt c Hs). lia.
Qed.

Lemma GenerationCalculator_call_settles_witness :
  GenerationCalculator.__call__ gen_calc (mol_packet "B" (Some 1%Z))
    (reaction_of [mol_packet "A" (Some 0%Z)] [mol_packet "B" None]) None
  = None.
Proof.
  apply (GenerationCalculator_call_settles gen_calc (mol_packet "B" None)
           (mol_packet "B" (Some 1%Z))
           (reaction_of [mol_packet "A" (Some 0%Z)] [mol_packet "B" None])
           None None 1%Z).
  - vm_compute. reflexivity.
  - vm_compute. reflexivity.
Defined.
